(** * Entropy scanner: a shallow embedding of [scanner.py] and
      [visualize_entropy.py]

    Python floats are read as real numbers: [1.0 * count / total] is an exact
    quotient and [math.log(p, 256)] is [ln p / ln 256].  Rounding of the
    binary64 operations is not part of this model.  Byte strings are lists of
    [byte]; the 256-bucket histogram is a [list nat] updated by index.
    What the programs print is kept as a list of structured lines, in the
    order of the [print] calls. *)

From Stdlib Require Import Reals Lra Lia ZArith String Strings.Byte.
From stdpp Require Import base list.

Open Scope R_scope.

(** Outcome of a Python call that may raise.  [Exception] stands for the
    classes derived from Python's [Exception], the ones [except Exception]
    catches. *)
Inductive Exception : Type :=
  | IndexError
  | ValueError
  | AttributeError
  | TypeError
  | OSError (msg : string)
  | ModelError (msg : string).

Inductive result (A : Type) : Type :=
  | Ok (a : A)
  | Raise (e : Exception).
Arguments Ok {A} a.
Arguments Raise {A} e.

Definition bind {A B : Type} (r : result A) (k : A -> result B) : result B :=
  match r with
  | Ok a => k a
  | Raise e => Raise e
  end.

Notation "'let*' x ':=' r 'in' k" := (bind r (fun x => k))
  (at level 10, x name, r at level 100, k at level 200).

(** [xs[0]] on a Python list. *)
Definition item0 {A : Type} (xs : list A) : result A :=
  match xs with
  | [] => Raise IndexError
  | x :: _ => Ok x
  end.

(** [max(xs)] on a list of numbers; the empty list raises [ValueError]. *)
Definition py_max (xs : list R) : result R :=
  match xs with
  | [] => Raise ValueError
  | x :: rest => Ok (fold_left Rmax rest x)
  end.

(** [math.log(x, base)]. *)
Definition math_log (x base : R) : R := ln x / ln base.

Definition Rgtb (x y : R) : bool := if Rgt_dec x y then true else false.
Definition Rltb (x y : R) : bool := if Rlt_dec x y then true else false.

(** [data[lo:hi]] for indices [0 <= lo]. *)
Definition slice {A : Type} (data : list A) (lo hi : nat) : list A :=
  take (hi - lo) (drop lo data).

(** [s.endswith(suffix)]. *)
Definition endswith (s suffix : string) : bool :=
  let n := String.length s in
  let m := String.length suffix in
  (m <=? n)%nat && String.eqb (substring (n - m) m s) suffix.

(** ** scanner.py *)
Module Scanner.

(** [byte_counts[byte] += 1]; a byte always indexes inside the 256 buckets. *)
Definition count_byte (byte_counts : list nat) (b : byte) : list nat :=
  alter S (Byte.to_nat b) byte_counts.

(** The first loop of [calculate_entropy]. *)
Definition byte_histogram (data : list byte) : list nat :=
  fold_left count_byte data (replicate 256 0%nat).

(** One round of the second loop: buckets with count 0 are skipped. *)
Definition entropy_step (total : nat) (entropy : R) (count : nat) : R :=
  if (count =? 0)%nat then entropy
  else
    let p := 1 * INR count / INR total in
    entropy - p * math_log p 256.

Definition calculate_entropy (data : list byte) : R :=
  match data with
  | [] => 0
  | _ :: _ =>
      let byte_counts := byte_histogram data in
      let total := length data in
      fold_left (entropy_step total) byte_counts 0
  end.

(** The four verdict words the scanner prints. *)
Inductive Status : Type := MALICIOUS | BENIGN | SUSPICIOUS | CLEAN.

(** One constructor per [print] call of [scan_file] and [_heuristic_scan],
    carrying the interpolated values, and [LUncaught e] for an exception
    [e] that leaves [scan_file]: nothing is printed after it, and since
    [main] does not catch it the run ends with its traceback. *)
Inductive Line : Type :=
  | LNotFound (file_path : string)
  | LScanning (file_path : string)
  | LErrorReading (e : Exception)
  | LAnalysisResults
  | LFileSize (file_size : Z)
  | LEntropy (entropy : R)
  | LVerdict (status : Status)
  | LConfidence (confidence : R)
  | LInferenceFailed (e : Exception)
  | LUsingHeuristic
  | LReason (text : string)
  | LUncaught (e : Exception).

Definition high_entropy_reason : string :=
  "High entropy detected (> 7.0), indicating packed or encrypted code.".
Definition low_entropy_reason : string :=
  "Low entropy for large file, possible text disguise.".
Definition normal_reason : string :=
  "Entropy levels within normal parameters.".

Definition _heuristic_scan (entropy : R) (file_size : Z) : list Line :=
  LUsingHeuristic ::
  if Rgtb entropy 7 then
    [LVerdict SUSPICIOUS; LReason high_entropy_reason]
  else if Rltb entropy 3 && (10000 <? file_size)%Z then
    [LVerdict SUSPICIOUS; LReason low_entropy_reason]
  else
    [LVerdict CLEAN; LReason normal_reason].

(** The unpickled classifier, seen through the two methods the scanner
    calls on it with the feature row [[entropy, file_size]].  [predict]
    returns the label array.  [predict_proba] is the method of an object
    whose probabilities are floats: one row of class probabilities per
    sample.  [predict_proba_objects] is the same method of an object whose
    probabilities are numbers that the format [.2f] rejects; it is read
    only when [predict_proba] is [None], and returns [Raise e] when the
    steps up to [max(prob[0]) * 100] raise [e], and [Ok e] when they give a
    confidence whose formatting raises [e].  An object without the
    attribute has [None] in both fields. *)
Record Model : Type := {
  predict : R -> Z -> result (list Z);
  predict_proba : option (R -> Z -> result (list (list R)));
  predict_proba_objects : option (R -> Z -> result Exception)
}.

(** The scanner object, seen through the truth test [if self.model].
    [model] is [Some m] for an object whose truth test returns [True];
    [model] is [None] for [None] and for an object whose truth test does
    not return [True], and then [model_truth_error] tells whether the test
    returns [False] ([None]) or raises ([Some e]: an object whose
    [__bool__] or [__len__] raises).  [model_truth_error] is read only when
    [model] is [None]. *)
Record SimpleScanner : Type := {
  model : option Model;
  model_path : option string;
  model_truth_error : option Exception
}.

(** What [os.path.exists] and [open(...).read()] find at the path. *)
Inductive File : Type :=
  | Missing
  | Unreadable (e : Exception)
  | Readable (data : list byte).

(** One constructor per [print] call of [load_model]. *)
Inductive LoadLine : Type :=
  | LNumpyMissing
  | LNumpyHint
  | LLoading (model_path : string)
  | LLoaded
  | LLoadFailed (e : Exception)
  | LFallingBack
  | LNoModel.

(** What [load_model] finds outside the program: [os.path.exists], and the
    outcome of opening a path (through [gzip.open] or [open]) and running
    [pickle.load] on it.  The unpickled object is [Some m] when it is truthy
    and [None] otherwise; the loader yields objects whose truth test
    returns. *)
Record Loader : Type := {
  path_exists : string -> bool;
  load_gzip : string -> result (option Model);
  load_plain : string -> result (option Model)
}.

(** The confidence as the [Confidence:] line meets it: a float, which the
    format [.2f] prints, or a number the format rejects. *)
Inductive Confidence : Type :=
  | Formats (confidence : R)
  | FormatFails (e : Exception).

Section WithNumpy.

(** The module-level flag set by the guarded [import numpy]. *)
Variable HAS_NUMPY : bool.

(** Body of the [try] block: the lines it prints and the exception, if
    any, that ends it.  The statements up to [status = ...] print nothing;
    then the [Verdict:] line is printed, and after it the [Confidence:]
    line, whose [.2f] format is the last thing that can raise. *)
Definition model_scan (m : Model) (entropy : R) (file_size : Z)
  : list Line * option Exception :=
  let before_print : result (Status * Confidence) :=
    let* prediction := predict m entropy file_size in
    let* confidence :=
      match predict_proba m with
      | Some proba =>
          let* prob := proba entropy file_size in
          let* row := item0 prob in
          let* top := py_max row in
          Ok (Formats (top * 100))
      | None =>
          match predict_proba_objects m with
          | Some proba =>
              let* e := proba entropy file_size in
              Ok (FormatFails e)
          | None => Ok (Formats 100)
          end
      end in
    let* label := item0 prediction in
    let is_malicious := (label =? 1)%Z in
    let status := if is_malicious then MALICIOUS else BENIGN in
    Ok (status, confidence) in
  match before_print with
  | Raise e => ([], Some e)
  | Ok (status, Formats confidence) =>
      ([LVerdict status; LConfidence confidence], None)
  | Ok (status, FormatFails e) => ([LVerdict status], Some e)
  end.

(** The [if self.model and HAS_NUMPY: ... else: ...] statement that ends
    [scan_file].  The truth test of [self.model] comes first and is outside
    the [try]: an exception it raises leaves [scan_file]. *)
Definition classify (self : SimpleScanner) (entropy : R) (file_size : Z)
  : list Line :=
  match model self with
  | Some m =>
      if HAS_NUMPY then
        match model_scan m entropy file_size with
        | (out, None) => out
        | (out, Some e) =>
            out ++ LInferenceFailed e :: _heuristic_scan entropy file_size
        end
      else _heuristic_scan entropy file_size
  | None =>
      match model_truth_error self with
      | Some e => [LUncaught e]
      | None => _heuristic_scan entropy file_size
      end
  end.

Definition scan_file (self : SimpleScanner) (file_path : string) (file : File)
  : list Line :=
  match file with
  | Missing => [LNotFound file_path]
  | Unreadable e => [LScanning file_path; LErrorReading e]
  | Readable data =>
      let file_size := Z.of_nat (length data) in
      let entropy := calculate_entropy data in
      [LScanning file_path; LAnalysisResults; LFileSize file_size;
       LEntropy entropy]
      ++ classify self entropy file_size
  end.

(** [load_model] as a method: the scanner it leaves and what it prints.
    [self.model] is assigned only when [pickle.load] returns. *)
Definition load_model (env : Loader) (self : SimpleScanner)
  : SimpleScanner * list LoadLine :=
  if negb HAS_NUMPY then (self, [LNumpyMissing; LNumpyHint])
  else
    match model_path self with
    | Some path =>
        if negb (String.eqb path EmptyString) && path_exists env path then
          match (if endswith path ".gz" then load_gzip env path
                 else load_plain env path) with
          | Ok obj =>
              ({| model := obj; model_path := model_path self;
                  model_truth_error := None |},
               [LLoading path; LLoaded])
          | Raise e => (self, [LLoading path; LLoadFailed e; LFallingBack])
          end
        else (self, [LNoModel])
    | None => (self, [LNoModel])
    end.

Definition __init__ (env : Loader) (model_path : option string)
  : SimpleScanner * list LoadLine :=
  load_model env {| model := None; model_path := model_path;
                    model_truth_error := None |}.

End WithNumpy.

(** *** Reading a verdict off the printed lines

    A verdict is a [Verdict:] line together with the [Confidence:] and
    [Reason:] lines printed after it, up to the next [Verdict:] line. *)
Record Verdict : Type := {
  status : Status;
  confidence : option R;
  reason : option string
}.

Fixpoint confidence_of (out : list Line) : option R :=
  match out with
  | [] => None
  | LVerdict _ :: _ => None
  | LConfidence c :: _ => Some c
  | _ :: rest => confidence_of rest
  end.

Fixpoint reason_of (out : list Line) : option string :=
  match out with
  | [] => None
  | LVerdict _ :: _ => None
  | LReason r :: _ => Some r
  | _ :: rest => reason_of rest
  end.

Fixpoint verdicts (out : list Line) : list Verdict :=
  match out with
  | [] => []
  | LVerdict st :: rest =>
      {| status := st; confidence := confidence_of rest;
         reason := reason_of rest |} :: verdicts rest
  | _ :: rest => verdicts rest
  end.

End Scanner.

(** ** visualize_entropy.py *)
Module Visualize.

(** [range(start, stop, step)] for a positive step, unrolled at most
    [fuel] times. *)
Fixpoint range_from (fuel start stop step : nat) : list nat :=
  match fuel with
  | O => []
  | S fuel' =>
      if (start <? stop)%nat
      then start :: range_from fuel' (start + step) stop step
      else []
  end.

(** [range(0, stop, step)], [step > 0]: [stop] rounds are always enough. *)
Definition range (stop step : nat) : list nat := range_from stop 0 stop step.

(** The entropy code written out inside the loop body. *)
Definition chunk_entropy (chunk : list byte) : R :=
  let byte_counts :=
    fold_left (fun counts b => alter S (Byte.to_nat b) counts) chunk
              (replicate 256 0%nat) in
  let length := length chunk in
  fold_left
    (fun entropy count =>
       if (count =? 0)%nat then entropy
       else
         let p := 1 * INR count / INR length in
         entropy - p * math_log p 256)
    byte_counts 0.

(** The [for i in range(...)] loop; [entropies] is the list built so far.
    An empty chunk leaves the loop. *)
Fixpoint chunk_loop (data : list byte) (window_size : nat) (starts : list nat)
    (entropies : list R) : list R :=
  match starts with
  | [] => entropies
  | i :: rest =>
      let chunk := slice data i (i + window_size) in
      match chunk with
      | [] => entropies
      | _ :: _ =>
          chunk_loop data window_size rest (entropies ++ [chunk_entropy chunk])
      end
  end.

(** [window_size] is any Python integer: [range] raises [ValueError] on a
    zero step and is empty for a negative one. *)
Definition calculate_local_entropy (data : list byte) (window_size : Z)
  : result (list R) :=
  if (Z.of_nat (length data) <? window_size)%Z then Ok [0]
  else
    match window_size with
    | Z0 => Raise ValueError
    | Zneg _ => Ok []
    | Zpos w =>
        Ok (chunk_loop data (Pos.to_nat w)
                       (range (length data) (Pos.to_nat w)) [])
    end.

(** One constructor per [print] call of [visualize_file]. *)
Inductive VLine : Type :=
  | VNoMatplotlib
  | VInstallHint
  | VNotFound (file_path : string)
  | VReading (file_path : string)
  | VErrorReading (e : Exception)
  | VCalculating (size : nat)
  | VSaving (output_image : string)
  | VDone.

(** The figure handed to [plt.savefig]: the plotted values, the path whose
    basename goes in the title, the axis labels, the y-limits and the
    output path.  Size, colour, line width and grid are left out. *)
Record Figure : Type := {
  plotted : list R;
  title_path : string;
  xlabel : string;
  ylabel : string;
  ylim : R * R;
  saved_to : string
}.

Section WithMatplotlib.

(** The module-level flag set by the guarded [import matplotlib.pyplot]. *)
Variable HAS_MATPLOTLIB : bool.

(** What is printed, and either the figure saved (if any) or the exception
    that leaves the function.  The matplotlib calls themselves are taken to
    succeed. *)
Definition visualize_file (file_path : string) (file : Scanner.File)
    (output_image : string) : list VLine * result (option Figure) :=
  if negb HAS_MATPLOTLIB then ([VNoMatplotlib; VInstallHint], Ok None)
  else
    match file with
    | Scanner.Missing => ([VNotFound file_path], Ok None)
    | Scanner.Unreadable e =>
        ([VReading file_path; VErrorReading e], Ok None)
    | Scanner.Readable data =>
        match calculate_local_entropy data 256 with
        | Raise e =>
            ([VReading file_path; VCalculating (length data)], Raise e)
        | Ok entropies =>
            ([VReading file_path; VCalculating (length data);
              VSaving output_image; VDone],
             Ok (Some {| plotted := entropies;
                         title_path := file_path;
                         xlabel := "Block Index (256 bytes per block)";
                         ylabel := "Entropy (0.0 - 1.0)";
                         ylim := (0, 1);
                         saved_to := output_image |}))
        end
    end.

End WithMatplotlib.

End Visualize.

(** ** Specification-side notions *)

(** How many bytes of [data] have code [i]. *)
Fixpoint occurrences (i : nat) (data : list byte) : nat :=
  match data with
  | [] => 0
  | b :: rest =>
      (if (Byte.to_nat b =? i)%nat then 1 else 0) + occurrences i rest
  end.

(** The summand one histogram bucket contributes to the entropy. *)
Definition entropy_term (total count : nat) : R :=
  if (count =? 0)%nat then 0
  else - (1 * INR count / INR total * math_log (1 * INR count / INR total) 256).

Definition Rsum (xs : list R) : R := fold_right Rplus 0 xs.

(** [ceil(n / w)] on naturals. *)
Definition ceil_div (n w : nat) : nat := ((n + w - 1) / w)%nat.

(** The 256 byte values, each once, in increasing order. *)
Definition all_bytes : list byte := omap Byte.of_nat (seq 0 256).

(** A classifier whose [predict] always raises, and a scanner holding it. *)
Definition failing_model : Scanner.Model :=
  {| Scanner.predict := fun _ _ => Raise (ModelError "shape mismatch");
     Scanner.predict_proba := None;
     Scanner.predict_proba_objects := None |}.

Definition failing_scanner : Scanner.SimpleScanner :=
  {| Scanner.model := Some failing_model; Scanner.model_path := None;
     Scanner.model_truth_error := None |}.

(** A scanner whose [self.model] is an object with a truth test that
    raises, as an unfitted scikit-learn ensemble does through [__len__]. *)
Definition unfitted_scanner : Scanner.SimpleScanner :=
  {| Scanner.model := None; Scanner.model_path := None;
     Scanner.model_truth_error := Some AttributeError |}.

(** A classifier that answers [label] and reports probabilities as numbers
    the format [.2f] rejects. *)
Definition unformattable_model (label : Z) : Scanner.Model :=
  {| Scanner.predict := fun _ _ => Ok [label];
     Scanner.predict_proba := None;
     Scanner.predict_proba_objects := Some (fun _ _ => Ok TypeError) |}.

(** Sample classifiers: one that answers [label] without probabilities, one
    that also reports the probability row [row], one whose probability step
    raises; and a scanner holding a given classifier. *)
Definition labelling_model (label : Z) : Scanner.Model :=
  {| Scanner.predict := fun _ _ => Ok [label];
     Scanner.predict_proba := None;
     Scanner.predict_proba_objects := None |}.

Definition probability_model (label : Z) (row : list R) : Scanner.Model :=
  {| Scanner.predict := fun _ _ => Ok [label];
     Scanner.predict_proba := Some (fun _ _ => Ok [row]);
     Scanner.predict_proba_objects := None |}.

Definition broken_proba_model (label : Z) : Scanner.Model :=
  {| Scanner.predict := fun _ _ => Ok [label];
     Scanner.predict_proba :=
       Some (fun _ _ => Raise (ModelError "no probabilities"));
     Scanner.predict_proba_objects := None |}.

Definition scanner_with (m : Scanner.Model) : Scanner.SimpleScanner :=
  {| Scanner.model := Some m; Scanner.model_path := None;
     Scanner.model_truth_error := None |}.

(** Number of byte values that occur in [data]: the non-empty buckets. *)
Definition distinct_values (data : list byte) : nat :=
  length (List.filter (fun c => negb (c =? 0)%nat)
                      (Scanner.byte_histogram data)).

(** [data * k] on a Python byte string. *)
Definition repeat_data (k : nat) (data : list byte) : list byte :=
  concat (replicate k data).

(** [b ^ 0xFF], the bitwise complement of a byte. *)
Definition complement_byte (b : byte) : byte :=
  match Byte.of_nat (255 - Byte.to_nat b) with
  | Some c => c
  | None => x00
  end.

(** ** The histogram loop *)

Lemma count_fold_lookup (data : list byte) (h : list nat) (i : nat) :
  fold_left Scanner.count_byte data h !! i
  = (fun c => (c + occurrences i data)%nat) <$> h !! i.
Proof.
  revert h; induction data as [|b data IH]; intros h; simpl.
  - destruct (h !! i); simpl; f_equal; lia.
  - rewrite IH. unfold Scanner.count_byte.
    destruct (decide (Byte.to_nat b = i)) as [->|Hne].
    + rewrite list_lookup_alter_eq, Nat.eqb_refl.
      destruct (h !! i); simpl; f_equal; lia.
    + rewrite list_lookup_alter_ne by assumption.
      apply Nat.eqb_neq in Hne; rewrite Hne.
      destruct (h !! i); simpl; f_equal; lia.
Qed.

Lemma histogram_lookup (data : list byte) (i : nat) :
  (i < 256)%nat ->
  Scanner.byte_histogram data !! i = Some (occurrences i data).
Proof.
  intros Hi. unfold Scanner.byte_histogram.
  rewrite count_fold_lookup, lookup_replicate_2 by assumption.
  reflexivity.
Qed.

Lemma count_fold_length (data : list byte) (h : list nat) :
  length (fold_left Scanner.count_byte data h) = length h.
Proof.
  revert h; induction data as [|b data IH]; intros h; simpl; [reflexivity|].
  rewrite IH. apply length_alter.
Qed.

Lemma histogram_length (data : list byte) :
  length (Scanner.byte_histogram data) = 256%nat.
Proof.
  unfold Scanner.byte_histogram.
  rewrite count_fold_length. apply length_replicate.
Qed.

Lemma sum_list_bump (h : list nat) (i : nat) :
  (i < length h)%nat -> sum_list (alter S i h) = S (sum_list h).
Proof.
  revert i; induction h as [|c h IH]; intros [|i] Hi; simpl in *; try lia.
  specialize (IH i ltac:(lia)). unfold alter in IH. lia.
Qed.

Lemma count_fold_sum (data : list byte) (h : list nat) :
  length h = 256%nat ->
  sum_list (fold_left Scanner.count_byte data h)
  = (sum_list h + length data)%nat.
Proof.
  revert h; induction data as [|b data IH]; intros h Hlen; simpl; [lia|].
  rewrite IH by (unfold Scanner.count_byte; rewrite length_alter; exact Hlen).
  unfold Scanner.count_byte. rewrite sum_list_bump; [lia|].
  pose proof (Byte.to_nat_bounded b). lia.
Qed.

Lemma histogram_sum (data : list byte) :
  sum_list (Scanner.byte_histogram data) = length data.
Proof.
  unfold Scanner.byte_histogram.
  rewrite count_fold_sum by apply length_replicate.
  rewrite sum_list_replicate. lia.
Qed.

(** ** The accumulation loop as a sum *)

Lemma Rsum_app (xs ys : list R) : Rsum (xs ++ ys) = Rsum xs + Rsum ys.
Proof.
  unfold Rsum. induction xs as [|x xs IH]; simpl; [lra|].
  rewrite IH. lra.
Qed.

Lemma entropy_fold_sum (total : nat) (h : list nat) (e : R) :
  fold_left (Scanner.entropy_step total) h e
  = e + Rsum (map (entropy_term total) h).
Proof.
  revert e; induction h as [|c h IH]; intros e; simpl.
  - lra.
  - rewrite IH. unfold Scanner.entropy_step, entropy_term.
    destruct (c =? 0)%nat; lra.
Qed.

Lemma calculate_entropy_sum (data : list byte) :
  Scanner.calculate_entropy data
  = Rsum (map (entropy_term (length data)) (Scanner.byte_histogram data)).
Proof.
  destruct data as [|b data].
  - vm_compute. lra.
  - unfold Scanner.calculate_entropy. rewrite entropy_fold_sum. lra.
Qed.

(** ** Bounds on the entropy sum *)

Lemma ln256_pos : 0 < ln 256.
Proof. rewrite <- ln_1. apply ln_increasing; lra. Qed.

Lemma ln_le_pred (x : R) : 0 < x -> ln x <= x - 1.
Proof.
  intros Hx. pose proof (exp_ineq1_le (ln x)) as H.
  rewrite exp_ln in H by assumption. lra.
Qed.

Lemma div_le_bound (a b c : R) : 0 < b -> a <= c * b -> a / b <= c.
Proof.
  intros Hb Hab. pose proof (Rinv_0_lt_compat b Hb) as Hinv.
  replace c with (c * b * / b) by (field; lra).
  unfold Rdiv. apply Rmult_le_compat_r; lra.
Qed.

Lemma ratio_pos (total count : nat) :
  (0 < total)%nat -> (0 < count)%nat -> 0 < 1 * INR count / INR total.
Proof.
  intros Ht Hc. apply lt_INR in Ht, Hc. simpl in Ht, Hc.
  rewrite Rmult_1_l. apply Rdiv_lt_0_compat; assumption.
Qed.

Lemma ratio_le_1 (total count : nat) :
  (0 < total)%nat -> (count <= total)%nat -> 1 * INR count / INR total <= 1.
Proof.
  intros Ht Hc. apply lt_INR in Ht. apply le_INR in Hc. simpl in Ht.
  rewrite Rmult_1_l. apply div_le_bound; lra.
Qed.

Lemma entropy_term_nonneg (total count : nat) :
  (0 < total)%nat -> (count <= total)%nat -> 0 <= entropy_term total count.
Proof.
  intros Ht Hc. unfold entropy_term.
  destruct (Nat.eqb_spec count 0) as [|Hne]; [lra|].
  pose proof (ratio_pos total count Ht ltac:(lia)) as Hp.
  pose proof (ratio_le_1 total count Ht Hc) as Hp1.
  set (p := 1 * INR count / INR total) in *.
  assert (ln p <= 0) by (pose proof (ln_le_pred p Hp); lra).
  pose proof ln256_pos. unfold math_log.
  assert (ln p / ln 256 <= 0).
  { apply div_le_bound; lra. }
  nra.
Qed.

Lemma entropy_term_upper (total count : nat) :
  (0 < total)%nat ->
  entropy_term total count * ln 256
  <= / 256 - INR count / INR total + INR count / INR total * ln 256.
Proof.
  intros Ht. unfold entropy_term.
  destruct (Nat.eqb_spec count 0) as [->|Hne].
  - simpl. unfold Rdiv. rewrite !Rmult_0_l. lra.
  - pose proof (ratio_pos total count Ht ltac:(lia)) as Hp.
    rewrite Rmult_1_l in *.
    set (p := INR count / INR total) in *.
    pose proof ln256_pos as H256. unfold math_log.
    replace (- (p * (ln p / ln 256)) * ln 256) with (- (p * ln p))
      by (field; lra).
    assert (Hx : 0 < / (256 * p)) by (apply Rinv_0_lt_compat; lra).
    pose proof (ln_le_pred _ Hx) as Hln.
    rewrite ln_Rinv, ln_mult in Hln by lra.
    assert (Hm : p * - (ln 256 + ln p) <= p * (/ (256 * p) - 1)).
    { apply Rmult_le_compat_l; lra. }
    replace (p * (/ (256 * p) - 1)) with (/ 256 - p) in Hm by (field; lra).
    lra.
Qed.

Lemma entropy_sum_upper (total : nat) (h : list nat) :
  (0 < total)%nat ->
  Rsum (map (entropy_term total) h) * ln 256
  <= INR (length h) / 256 - INR (sum_list h) / INR total
     + INR (sum_list h) / INR total * ln 256.
Proof.
  intros Ht. induction h as [|c h IH].
  - simpl. unfold Rdiv. rewrite !Rmult_0_l. lra.
  - pose proof (entropy_term_upper total c Ht) as Hc.
    change (Rsum (map (entropy_term total) (c :: h)))
      with (entropy_term total c + Rsum (map (entropy_term total) h)).
    change (length (c :: h)) with (S (length h)).
    change (sum_list (c :: h)) with (c + sum_list h)%nat.
    rewrite S_INR, plus_INR. unfold Rdiv in *. lra.
Qed.

Lemma le_sum_list (h : list nat) : Forall (fun c => (c <= sum_list h)%nat) h.
Proof.
  induction h as [|c h IH]; constructor; simpl; [lia|].
  eapply Forall_impl; [exact IH|]. simpl; intros; lia.
Qed.

Lemma entropy_sum_nonneg (total : nat) (h : list nat) :
  (0 < total)%nat -> Forall (fun c => (c <= total)%nat) h ->
  0 <= Rsum (map (entropy_term total) h).
Proof.
  intros Ht Hall. induction Hall as [|c h Hc _ IH]; simpl; [lra|].
  pose proof (entropy_term_nonneg total c Ht Hc). lra.
Qed.

Lemma calculate_entropy_bounds (data : list byte) :
  0 <= Scanner.calculate_entropy data <= 1.
Proof.
  destruct data as [|b data]; [simpl; lra|].
  rewrite calculate_entropy_sum.
  set (data' := b :: data). set (h := Scanner.byte_histogram data').
  assert (Ht : (0 < length data')%nat) by (simpl; lia).
  split.
  - apply entropy_sum_nonneg; [assumption|].
    rewrite <- (histogram_sum data'). apply le_sum_list.
  - pose proof (entropy_sum_upper (length data') h Ht) as Hup.
    subst h. rewrite histogram_length, histogram_sum in Hup.
    pose proof ln256_pos. apply lt_0_INR in Ht.
    replace (INR 256) with 256 in Hup by (simpl; lra).
    unfold Rdiv in Hup. rewrite !Rinv_r in Hup by lra.
    nra.
Qed.

(** ** When the entropy is zero *)

Lemma entropy_term_full (total : nat) :
  (0 < total)%nat -> entropy_term total total = 0.
Proof.
  intros Ht. unfold entropy_term.
  destruct (Nat.eqb_spec total 0) as [|_]; [reflexivity|].
  apply lt_0_INR in Ht.
  replace (1 * INR total / INR total) with 1 by (field; lra).
  unfold math_log. rewrite ln_1. unfold Rdiv. lra.
Qed.

Lemma entropy_term_zero_inv (total count : nat) :
  (0 < count)%nat -> (count <= total)%nat ->
  entropy_term total count = 0 -> count = total.
Proof.
  intros Hc Hle H0. unfold entropy_term in H0.
  destruct (Nat.eqb_spec count 0) as [|_]; [lia|].
  pose proof (ratio_pos total count ltac:(lia) Hc) as Hp.
  pose proof ln256_pos as H256. unfold math_log in H0.
  set (p := 1 * INR count / INR total) in *.
  assert (Hln : ln p = 0).
  { assert (Hprod : p * ln p = 0).
    { replace (p * ln p) with (p * (ln p / ln 256) * ln 256) by (field; lra).
      nra. }
    apply Rmult_integral in Hprod. destruct Hprod; lra. }
  assert (Hp1 : p = 1).
  { destruct (Req_dec p 1) as [|Hne]; [assumption|].
    exfalso. exact (ln_neq_0 p Hne Hp Hln). }
  apply INR_eq. subst p.
  assert (0 < INR total) by (apply lt_0_INR; lia).
  apply (Rmult_eq_compat_r (INR total)) in Hp1.
  replace (1 * INR count / INR total * INR total) with (INR count) in Hp1
    by (field; lra).
  lra.
Qed.

Lemma entropy_sum_zero (total : nat) (h : list nat) :
  (0 < total)%nat ->
  Forall (fun c => c = 0%nat \/ c = total) h ->
  Rsum (map (entropy_term total) h) = 0.
Proof.
  intros Ht Hall. induction Hall as [|c h Hc _ IH]; simpl; [reflexivity|].
  rewrite IH. destruct Hc as [->| ->].
  - unfold entropy_term. simpl. lra.
  - rewrite entropy_term_full by assumption. lra.
Qed.

Lemma Rsum_zero_inv (xs : list R) :
  Forall (fun x => 0 <= x) xs -> Rsum xs = 0 -> Forall (fun x => x = 0) xs.
Proof.
  intros Hall. induction Hall as [|x xs Hx Hxs IH]; simpl; intros Hsum.
  - constructor.
  - assert (0 <= Rsum xs).
    { clear -Hxs. induction Hxs; simpl; lra. }
    constructor; [lra|]. apply IH. lra.
Qed.

Lemma occurrences_replicate (i n : nat) (b : byte) :
  occurrences i (replicate n b)
  = if (Byte.to_nat b =? i)%nat then n else 0%nat.
Proof.
  induction n as [|n IH]; simpl.
  - destruct (Byte.to_nat b =? i)%nat; reflexivity.
  - rewrite IH. destruct (Byte.to_nat b =? i)%nat; lia.
Qed.

Lemma occurrences_le_length (i : nat) (data : list byte) :
  (occurrences i data <= length data)%nat.
Proof.
  induction data as [|b data IH]; simpl; [lia|].
  destruct (Byte.to_nat b =? i)%nat; lia.
Qed.

Lemma occurrences_full (i : nat) (data : list byte) :
  occurrences i data = length data ->
  Forall (fun b => Byte.to_nat b = i) data.
Proof.
  induction data as [|b data IH]; simpl; intros Hocc; [constructor|].
  pose proof (occurrences_le_length i data).
  destruct (Nat.eqb_spec (Byte.to_nat b) i); [|lia].
  constructor; [assumption|]. apply IH. lia.
Qed.

Lemma to_nat_inj (a b : byte) : Byte.to_nat a = Byte.to_nat b -> a = b.
Proof.
  intros Heq. pose proof (Byte.of_to_nat a) as Ha.
  rewrite Heq, Byte.of_to_nat in Ha. congruence.
Qed.

Lemma byte_of_index (i : nat) :
  (i < 256)%nat -> exists b : byte, Byte.to_nat b = i.
Proof.
  intros Hi. pose proof (Byte.to_of_nat_option_map i) as Hmap.
  destruct (Nat.leb_spec i 255); [|lia].
  destruct (Byte.of_nat i) as [b|]; simpl in Hmap; [|discriminate].
  exists b. congruence.
Qed.

Lemma histogram_Forall (P : nat -> Prop) (data : list byte) :
  (forall i, (i < 256)%nat -> P (occurrences i data)) ->
  Forall P (Scanner.byte_histogram data).
Proof.
  intros HP. apply Forall_lookup. intros i c Hlook.
  assert (Hi : (i < 256)%nat).
  { rewrite <- (histogram_length data). eapply lookup_lt_Some; eassumption. }
  rewrite histogram_lookup in Hlook by assumption.
  injection Hlook as <-. apply HP; assumption.
Qed.

Lemma entropy_replicate (b : byte) (n : nat) :
  Scanner.calculate_entropy (replicate n b) = 0.
Proof.
  destruct n as [|n]; [reflexivity|].
  rewrite calculate_entropy_sum, length_replicate.
  apply entropy_sum_zero; [lia|].
  apply histogram_Forall. intros i _.
  rewrite occurrences_replicate.
  destruct (Byte.to_nat b =? i)%nat; auto.
Qed.

Lemma entropy_zero_inv (data : list byte) :
  Scanner.calculate_entropy data = 0 ->
  data = [] \/ exists b, data = replicate (length data) b.
Proof.
  destruct data as [|b rest]; [auto|]. intros H0. right. exists b.
  set (data := b :: rest) in *.
  assert (Ht : (0 < length data)%nat) by (simpl; lia).
  rewrite calculate_entropy_sum in H0.
  apply Rsum_zero_inv in H0.
  - rewrite Forall_map in H0.
    rewrite Forall_lookup in H0.
    assert (Hb : (Byte.to_nat b < 256)%nat)
      by (pose proof (Byte.to_nat_bounded b); lia).
    specialize (H0 (Byte.to_nat b) (occurrences (Byte.to_nat b) data)
                   (histogram_lookup data _ Hb)).
    cbv beta in H0.
    apply entropy_term_zero_inv in H0.
    + apply occurrences_full in H0.
      symmetry. apply replicate_as_Forall. split; [reflexivity|].
      eapply Forall_impl; [exact H0|].
      intros x Hx. apply to_nat_inj. symmetry. exact Hx.
    + subst data. simpl. rewrite Nat.eqb_refl. lia.
    + apply occurrences_le_length.
  - rewrite Forall_map. apply histogram_Forall. intros i _. cbv beta.
    apply entropy_term_nonneg; [assumption|apply occurrences_le_length].
Qed.

(** ** The uniform histogram *)

Lemma entropy_sum_const (total c : nat) (h : list nat) :
  Forall (fun x => x = c) h ->
  Rsum (map (entropy_term total) h) = INR (length h) * entropy_term total c.
Proof.
  intros Hall. induction Hall as [|x h -> _ IH].
  - simpl. lra.
  - change (Rsum (map (entropy_term total) (c :: h)))
      with (entropy_term total c + Rsum (map (entropy_term total) h)).
    change (length (c :: h)) with (S (length h)).
    rewrite IH, S_INR. lra.
Qed.

Lemma entropy_term_uniform : entropy_term 256 1 = / 256.
Proof.
  unfold entropy_term. change (1 =? 0)%nat with false. cbv iota.
  replace (1 * INR 1 / INR 256) with (/ 256) by (simpl; lra).
  unfold math_log. rewrite ln_Rinv by lra.
  pose proof ln256_pos. field. lra.
Qed.

Lemma entropy_uniform (data : list byte) :
  length data = 256%nat ->
  (forall b : byte, occurrences (Byte.to_nat b) data = 1%nat) ->
  Scanner.calculate_entropy data = 1.
Proof.
  intros Hlen Honce.
  rewrite calculate_entropy_sum, Hlen.
  rewrite (entropy_sum_const 256 1).
  - rewrite histogram_length, entropy_term_uniform.
    replace (INR 256) with 256 by (simpl; lra). lra.
  - apply histogram_Forall. intros i Hi.
    destruct (byte_of_index i Hi) as [b <-]. apply Honce.
Qed.

(** ** The windowed profile *)

Lemma chunk_entropy_eq (chunk : list byte) :
  Visualize.chunk_entropy chunk = Scanner.calculate_entropy chunk.
Proof.
  destruct chunk as [|b chunk]; [|reflexivity].
  change (Scanner.calculate_entropy []) with 0.
  change (Visualize.chunk_entropy [])
    with (fold_left (Scanner.entropy_step 0) (Scanner.byte_histogram []) 0).
  rewrite entropy_fold_sum.
  rewrite (entropy_sum_const 0 0).
  - unfold entropy_term. simpl. lra.
  - apply histogram_Forall. reflexivity.
Qed.

Lemma ceil_div_step (d w : nat) :
  (0 < d)%nat -> (0 < w)%nat -> ceil_div d w = S (ceil_div (d - w) w).
Proof.
  intros Hd Hw. unfold ceil_div.
  replace (d + w - 1)%nat with (d - 1 + 1 * w)%nat by lia.
  rewrite Nat.div_add by lia.
  destruct (Nat.le_gt_cases w d) as [Hle|Hlt].
  - replace (d - w + w - 1)%nat with (d - 1)%nat by lia. lia.
  - replace (d - w + w - 1)%nat with (w - 1)%nat by lia.
    rewrite !Nat.div_small by lia. lia.
Qed.

Lemma ceil_div_zero (w : nat) : (0 < w)%nat -> ceil_div 0 w = 0%nat.
Proof. intros Hw. unfold ceil_div. apply Nat.div_small. lia. Qed.

Lemma range_from_seq (fuel start stop step : nat) :
  (0 < step)%nat -> (stop - start <= fuel)%nat ->
  Visualize.range_from fuel start stop step
  = map (fun k => (start + k * step)%nat)
        (seq 0 (ceil_div (stop - start) step)).
Proof.
  intros Hstep. revert start.
  induction fuel as [|fuel IH]; intros start Hfuel; simpl.
  - replace (stop - start)%nat with 0%nat by lia.
    rewrite ceil_div_zero by assumption. reflexivity.
  - destruct (Nat.ltb_spec start stop) as [Hlt|Hge].
    + rewrite (ceil_div_step (stop - start) step) by lia.
      rewrite IH by lia.
      replace (stop - start - step)%nat with (stop - (start + step))%nat
        by lia.
      cbn [seq map]. f_equal; [lia|].
      rewrite <- seq_shift, map_map.
      apply map_ext. intros k. lia.
    + replace (stop - start)%nat with 0%nat by lia.
      rewrite ceil_div_zero by assumption. reflexivity.
Qed.

Lemma range_seq (stop step : nat) :
  (0 < step)%nat ->
  Visualize.range stop step
  = map (fun k => (k * step)%nat) (seq 0 (ceil_div stop step)).
Proof.
  intros Hstep. unfold Visualize.range.
  rewrite range_from_seq by lia.
  rewrite Nat.sub_0_r. apply map_ext. intros k. lia.
Qed.

Lemma ceil_div_bounds (n w k : nat) :
  (0 < w)%nat -> (k < ceil_div n w)%nat -> (k * w < n)%nat.
Proof.
  intros Hw Hk. unfold ceil_div in Hk.
  pose proof (Nat.div_mod (n + w - 1) w ltac:(lia)) as Hdm.
  pose proof (Nat.mod_upper_bound (n + w - 1) w ltac:(lia)) as Hmod.
  nia.
Qed.

Lemma slice_length {A : Type} (data : list A) (lo hi : nat) :
  length (slice data lo hi) = Nat.min (hi - lo) (length data - lo).
Proof. unfold slice. rewrite length_take, length_drop. reflexivity. Qed.

Lemma chunk_loop_seq (data : list byte) (w m j : nat) (acc : list R) :
  (0 < w)%nat ->
  (forall k, (j <= k < j + m)%nat -> (k * w < length data)%nat) ->
  Visualize.chunk_loop data w (map (fun k => (k * w)%nat) (seq j m)) acc
  = acc ++ map (fun k => Scanner.calculate_entropy
                           (slice data (k * w) ((k + 1) * w)))
               (seq j m).
Proof.
  intros Hw. revert j acc.
  induction m as [|m IH]; intros j acc Hin; cbn [seq map Visualize.chunk_loop].
  - rewrite app_nil_r. reflexivity.
  - pose proof (Hin j ltac:(lia)) as Hj.
    pose proof (slice_length data (j * w) (j * w + w)) as Hlen.
    replace ((j + 1) * w)%nat with (j * w + w)%nat by lia.
    destruct (slice data (j * w) (j * w + w)) as [|b chunk] eqn:Hchunk.
    + simpl in Hlen. lia.
    + rewrite IH by (intros k Hk; apply Hin; lia).
      rewrite <- app_assoc, chunk_entropy_eq. reflexivity.
Qed.

Lemma local_entropy_chunks (data : list byte) (w : Z) :
  (0 < w)%Z -> (w <= Z.of_nat (length data))%Z ->
  Visualize.calculate_local_entropy data w
  = Ok (map (fun k => Scanner.calculate_entropy
                        (slice data (k * Z.to_nat w) ((k + 1) * Z.to_nat w)))
            (seq 0 (ceil_div (length data) (Z.to_nat w)))).
Proof.
  intros Hw Hle. unfold Visualize.calculate_local_entropy.
  destruct (Z.ltb_spec (Z.of_nat (length data)) w) as [Hlt|_]; [lia|].
  destruct w as [|p|p]; try lia.
  change (Z.to_nat (Z.pos p)) with (Pos.to_nat p).
  pose proof (Pos2Nat.is_pos p) as Hp.
  rewrite range_seq by assumption.
  rewrite chunk_loop_seq; [reflexivity|assumption|].
  intros k Hk. apply ceil_div_bounds; [assumption|lia].
Qed.

Lemma local_entropy_short (data : list byte) (w : Z) :
  (Z.of_nat (length data) < w)%Z ->
  Visualize.calculate_local_entropy data w = Ok [0].
Proof.
  intros Hlt. unfold Visualize.calculate_local_entropy.
  destruct (Z.ltb_spec (Z.of_nat (length data)) w); [reflexivity|lia].
Qed.

Lemma ceil_div_spec (n w : nat) :
  (0 < w)%nat -> (0 < n)%nat ->
  ((ceil_div n w - 1) * w < n <= ceil_div n w * w)%nat.
Proof.
  intros Hw Hn. unfold ceil_div.
  pose proof (Nat.div_mod (n + w - 1) w ltac:(lia)) as Hdm.
  pose proof (Nat.mod_upper_bound (n + w - 1) w ltac:(lia)) as Hmod.
  assert (1 <= (n + w - 1) / w)%nat.
  { apply Nat.div_le_lower_bound; lia. }
  nia.
Qed.

(** ** The heuristic and the classification step *)

Lemma Rgtb_true (x y : R) : x > y -> Rgtb x y = true.
Proof. intros H. unfold Rgtb. destruct (Rgt_dec x y); [reflexivity|lra]. Qed.

Lemma Rgtb_false (x y : R) : x <= y -> Rgtb x y = false.
Proof. intros H. unfold Rgtb. destruct (Rgt_dec x y); [lra|reflexivity]. Qed.

Lemma Rltb_true (x y : R) : x < y -> Rltb x y = true.
Proof. intros H. unfold Rltb. destruct (Rlt_dec x y); [reflexivity|lra]. Qed.

Lemma Rltb_false (x y : R) : y <= x -> Rltb x y = false.
Proof. intros H. unfold Rltb. destruct (Rlt_dec x y); [lra|reflexivity]. Qed.

Lemma heuristic_high (entropy : R) (file_size : Z) :
  entropy > 7 ->
  Scanner._heuristic_scan entropy file_size
  = [Scanner.LUsingHeuristic; Scanner.LVerdict Scanner.SUSPICIOUS;
     Scanner.LReason Scanner.high_entropy_reason].
Proof.
  intros H. unfold Scanner._heuristic_scan.
  rewrite Rgtb_true by assumption. reflexivity.
Qed.

Lemma heuristic_low (entropy : R) (file_size : Z) :
  entropy <= 7 -> entropy < 3 -> (10000 < file_size)%Z ->
  Scanner._heuristic_scan entropy file_size
  = [Scanner.LUsingHeuristic; Scanner.LVerdict Scanner.SUSPICIOUS;
     Scanner.LReason Scanner.low_entropy_reason].
Proof.
  intros H7 H3 Hs. unfold Scanner._heuristic_scan.
  rewrite Rgtb_false, Rltb_true by assumption.
  apply Z.ltb_lt in Hs. rewrite Hs. reflexivity.
Qed.

Lemma heuristic_clean (entropy : R) (file_size : Z) :
  entropy <= 7 -> 3 <= entropy \/ (file_size <= 10000)%Z ->
  Scanner._heuristic_scan entropy file_size
  = [Scanner.LUsingHeuristic; Scanner.LVerdict Scanner.CLEAN;
     Scanner.LReason Scanner.normal_reason].
Proof.
  intros H7 Hor. unfold Scanner._heuristic_scan.
  rewrite Rgtb_false by assumption. destruct Hor as [H3|Hs].
  - rewrite Rltb_false by assumption. reflexivity.
  - apply Z.ltb_ge in Hs. rewrite Hs, andb_false_r. reflexivity.
Qed.

Lemma heuristic_one_verdict (entropy : R) (file_size : Z) :
  exists st r,
    Scanner._heuristic_scan entropy file_size
    = [Scanner.LUsingHeuristic; Scanner.LVerdict st; Scanner.LReason r].
Proof.
  unfold Scanner._heuristic_scan.
  destruct (Rgtb entropy 7); [eauto|].
  destruct (Rltb entropy 3 && (10000 <? file_size)%Z); eauto.
Qed.

Lemma model_scan_cases (m : Scanner.Model) (entropy : R) (file_size : Z) :
  (exists e, Scanner.model_scan m entropy file_size = ([], Some e))
  \/ (exists st c,
        (st = Scanner.MALICIOUS \/ st = Scanner.BENIGN)
        /\ Scanner.model_scan m entropy file_size
           = ([Scanner.LVerdict st; Scanner.LConfidence c], None))
  \/ (exists st e,
        (st = Scanner.MALICIOUS \/ st = Scanner.BENIGN)
        /\ Scanner.predict_proba m = None
        /\ Scanner.predict_proba_objects m <> None
        /\ Scanner.model_scan m entropy file_size
           = ([Scanner.LVerdict st], Some e)).
Proof.
  assert (Hst : forall label : Z,
    (if (label =? 1)%Z then Scanner.MALICIOUS else Scanner.BENIGN)
    = Scanner.MALICIOUS
    \/ (if (label =? 1)%Z then Scanner.MALICIOUS else Scanner.BENIGN)
       = Scanner.BENIGN)
    by (intros label; destruct (label =? 1)%Z; auto).
  unfold Scanner.model_scan, bind.
  destruct (Scanner.predict m entropy file_size) as [prediction|e]; [|eauto].
  destruct (Scanner.predict_proba m) as [proba|].
  - destruct (proba entropy file_size) as [prob|e]; [|eauto].
    destruct (item0 prob) as [row|e]; [|eauto].
    destruct (py_max row) as [top|e]; [|eauto].
    destruct (item0 prediction) as [label|e]; [|eauto].
    right; left. do 2 eexists. split; [apply Hst|reflexivity].
  - destruct (Scanner.predict_proba_objects m) as [proba|] eqn:Hobj.
    + destruct (proba entropy file_size) as [e'|e]; [|eauto].
      destruct (item0 prediction) as [label|e]; [|eauto].
      right; right. do 2 eexists.
      split; [apply Hst|].
      split; [reflexivity|split; [discriminate|reflexivity]].
    + destruct (item0 prediction) as [label|e]; [|eauto].
      right; left. do 2 eexists. split; [apply Hst|reflexivity].
Qed.

Lemma classify_shape (HAS_NUMPY : bool) (self : Scanner.SimpleScanner)
    (entropy : R) (file_size : Z) :
  (exists st c,
      (st = Scanner.MALICIOUS \/ st = Scanner.BENIGN)
      /\ HAS_NUMPY = true /\ Scanner.model self <> None
      /\ Scanner.classify HAS_NUMPY self entropy file_size
         = [Scanner.LVerdict st; Scanner.LConfidence c])
  \/ Scanner.classify HAS_NUMPY self entropy file_size
     = Scanner._heuristic_scan entropy file_size
  \/ (exists e,
        Scanner.classify HAS_NUMPY self entropy file_size
        = Scanner.LInferenceFailed e
            :: Scanner._heuristic_scan entropy file_size)
  \/ (exists m st e,
        (st = Scanner.MALICIOUS \/ st = Scanner.BENIGN)
        /\ HAS_NUMPY = true /\ Scanner.model self = Some m
        /\ Scanner.predict_proba m = None
        /\ Scanner.predict_proba_objects m <> None
        /\ Scanner.classify HAS_NUMPY self entropy file_size
           = Scanner.LVerdict st :: Scanner.LInferenceFailed e
               :: Scanner._heuristic_scan entropy file_size)
  \/ (exists e,
        Scanner.model self = None
        /\ Scanner.model_truth_error self = Some e
        /\ Scanner.classify HAS_NUMPY self entropy file_size
           = [Scanner.LUncaught e]).
Proof.
  unfold Scanner.classify.
  destruct (Scanner.model self) as [m|] eqn:Hmodel.
  - destruct HAS_NUMPY; [|auto].
    destruct (model_scan_cases m entropy file_size)
      as [[e ->]|[(st & c & Hst & ->)|(st & e & Hst & Hnone & Hobj & ->)]].
    + right; right; left. eauto.
    + left. exists st, c.
      split; [exact Hst|].
      split; [reflexivity|split; [discriminate|reflexivity]].
    + right; right; right; left. exists m, st, e. auto 10.
  - destruct (Scanner.model_truth_error self) as [e|]; [|auto].
    right; right; right; right. eauto.
Qed.

(** A scanner on which neither of the two irregular paths can be taken:
    the truth test of [self.model] returns, and the model's confidence is a
    float. *)
Lemma classify_regular (HAS_NUMPY : bool) (self : Scanner.SimpleScanner)
    (entropy : R) (file_size : Z) :
  (Scanner.model self = None -> Scanner.model_truth_error self = None) ->
  (forall m, Scanner.model self = Some m ->
             Scanner.predict_proba_objects m = None) ->
  (exists st c,
      (st = Scanner.MALICIOUS \/ st = Scanner.BENIGN)
      /\ HAS_NUMPY = true /\ Scanner.model self <> None
      /\ Scanner.classify HAS_NUMPY self entropy file_size
         = [Scanner.LVerdict st; Scanner.LConfidence c])
  \/ Scanner.classify HAS_NUMPY self entropy file_size
     = Scanner._heuristic_scan entropy file_size
  \/ (exists e,
        Scanner.classify HAS_NUMPY self entropy file_size
        = Scanner.LInferenceFailed e
            :: Scanner._heuristic_scan entropy file_size).
Proof.
  intros Htruth Hfloat.
  destruct (classify_shape HAS_NUMPY self entropy file_size)
    as [H|[H|[H|[(m & st & e & _ & _ & Hm & _ & Hobj & _)
                |(e & Hm & He & _)]]]];
    auto.
  - exfalso. apply Hobj. eapply Hfloat; eassumption.
  - rewrite (Htruth Hm) in He. discriminate.
Qed.

(** Without a readable file the scan stops before any verdict. *)
Lemma no_file_no_verdict (HAS_NUMPY : bool) (self : Scanner.SimpleScanner)
    (file_path : string) (e : Exception) :
  Scanner.verdicts (Scanner.scan_file HAS_NUMPY self file_path Scanner.Missing)
  = []
  /\ Scanner.verdicts
       (Scanner.scan_file HAS_NUMPY self file_path (Scanner.Unreadable e))
     = [].
Proof. split; reflexivity. Qed.

(** Two distinct bytes: one bit of entropy, an eighth on the base-256
    scale. *)
Example entropy_two_bytes : Scanner.calculate_entropy [x00; x01] = / 8.
Proof.
  rewrite calculate_entropy_sum.
  change (length [x00; x01]) with 2%nat.
  assert (Hh : Scanner.byte_histogram [x00; x01]
               = [1; 1]%nat ++ replicate 254 0%nat) by reflexivity.
  rewrite Hh, map_app.
  assert (Hzero : Rsum (map (entropy_term 2) (replicate 254 0%nat)) = 0).
  { rewrite (entropy_sum_const 2 0).
    - unfold entropy_term. simpl (0 =? 0)%nat. lra.
    - apply Forall_replicate. reflexivity. }
  rewrite Rsum_app, Hzero.
  assert (Hterm : entropy_term 2 1 = / 16).
  { unfold entropy_term. change (1 =? 0)%nat with false. cbv iota.
    replace (1 * INR 1 / INR 2) with (/ 2) by (simpl; lra).
    unfold math_log. rewrite ln_Rinv by lra.
    replace 256 with (2 ^ 8) by lra.
    rewrite ln_pow by lra.
    assert (0 < ln 2) by (rewrite <- ln_1; apply ln_increasing; lra).
    replace (INR 8) with 8 by (simpl; lra). field. lra. }
  cbn [map Rsum fold_right]. rewrite Hterm. lra.
Qed.

(** * The claims *)

(** C5. The whole-file entropy of a buffer is 0 exactly when the buffer is
    empty or is [n >= 1] repetitions of one byte value. *)
Theorem entropy_zero_iff (data : list byte) :
  Scanner.calculate_entropy data = 0
  <-> data = [] \/ exists (b : byte) (n : nat), (1 <= n)%nat /\ data = replicate n b.
Proof.
  split.
  - intros H0. destruct (entropy_zero_inv data H0) as [->|[b Hrep]]; [auto|].
    destruct data as [|b0 rest]; [auto|].
    right. exists b, (length (b0 :: rest)). split; [simpl; lia|exact Hrep].
  - intros [->|(b & n & _ & ->)]; [reflexivity|apply entropy_replicate].
Qed.

(** C6. A buffer of length 256 that holds every byte value exactly once
    has whole-file entropy 1, hence within 1e-9 of 1. *)
Theorem entropy_uniform_256 (data : list byte) :
  length data = 256%nat ->
  (forall b : byte, occurrences (Byte.to_nat b) data = 1%nat) ->
  Scanner.calculate_entropy data = 1
  /\ Rabs (Scanner.calculate_entropy data - 1) <= / 1000000000.
Proof.
  intros Hlen Honce.
  pose proof (entropy_uniform data Hlen Honce) as H1.
  split; [assumption|].
  rewrite H1, Rminus_diag, Rabs_R0. lra.
Qed.

Lemma entropy_uniform_256_witness :
  Scanner.calculate_entropy all_bytes = 1
  /\ Rabs (Scanner.calculate_entropy all_bytes - 1) <= / 1000000000.
Proof.
  apply (entropy_uniform_256 all_bytes).
  - reflexivity.
  - intros b. destruct b; reflexivity.
Defined.

(** X20. Floats read as reals: the exact value of the sum that
    [calculate_entropy] computes lies in [0, 1], and so does every element
    of a profile returned by [calculate_local_entropy].  (The binary64
    number the program returns is this value up to rounding.) *)
Theorem entropy_in_unit_interval (data : list byte) (w : Z) (profile : list R) :
  Visualize.calculate_local_entropy data w = Ok profile ->
  0 <= Scanner.calculate_entropy data <= 1
  /\ Forall (fun e => 0 <= e <= 1) profile.
Proof.
  intros Hrun. split; [apply calculate_entropy_bounds|].
  destruct (Z.lt_ge_cases (Z.of_nat (length data)) w) as [Hlt|Hge].
  - rewrite local_entropy_short in Hrun by assumption.
    injection Hrun as <-. repeat constructor; lra.
  - destruct w as [|p|p].
    + unfold Visualize.calculate_local_entropy in Hrun.
      destruct (Z.ltb_spec (Z.of_nat (length data)) 0); [lia|discriminate].
    + rewrite local_entropy_chunks in Hrun by lia.
      injection Hrun as <-. apply Forall_map, Forall_forall.
      intros k _. apply calculate_entropy_bounds.
    + unfold Visualize.calculate_local_entropy in Hrun.
      destruct (Z.ltb_spec (Z.of_nat (length data)) (Z.neg p)); [lia|].
      injection Hrun as <-. constructor.
Qed.

Lemma entropy_in_unit_interval_witness :
  0 <= Scanner.calculate_entropy [x00; x01; x01] <= 1
  /\ Forall (fun e => 0 <= e <= 1)
            [Visualize.chunk_entropy [x00; x01]; Visualize.chunk_entropy [x01]].
Proof.
  apply (entropy_in_unit_interval [x00; x01; x01] 2). reflexivity.
Defined.

(** C8. For a window size [w > 0]: a buffer of at least [w] bytes yields
    exactly [ceil(len / w)] values, a shorter buffer yields [[0]]. *)
Theorem windowed_entropy_length (data : list byte) (w : Z) :
  (0 < w)%Z ->
  ((w <= Z.of_nat (length data))%Z ->
   exists profile,
     Visualize.calculate_local_entropy data w = Ok profile
     /\ length profile = ceil_div (length data) (Z.to_nat w)
     /\ ((length profile - 1) * Z.to_nat w < length data
         <= length profile * Z.to_nat w)%nat)
  /\ ((Z.of_nat (length data) < w)%Z ->
      Visualize.calculate_local_entropy data w = Ok [0]).
Proof.
  intros Hw. split.
  - intros Hle. eexists. split; [apply local_entropy_chunks; assumption|].
    rewrite length_map, length_seq. split; [reflexivity|].
    apply ceil_div_spec; lia.
  - apply local_entropy_short.
Qed.

Lemma windowed_entropy_length_witness :
  (exists profile,
      Visualize.calculate_local_entropy [x00; x01; x02; x03; x04] 2
      = Ok profile
      /\ length profile = 3%nat)
  /\ Visualize.calculate_local_entropy [x00] 2 = Ok [0].
Proof.
  split.
  - destruct (windowed_entropy_length [x00; x01; x02; x03; x04] 2 ltac:(lia))
      as [Hlong _].
    destruct (Hlong ltac:(simpl; lia)) as (profile & Hrun & Hlen & _).
    exists profile. split; [exact Hrun|exact Hlen].
  - destruct (windowed_entropy_length [x00] 2 ltac:(lia)) as [_ Hshort].
    apply Hshort. simpl; lia.
Defined.

(** C9. For [len(data) >= w > 0] the profile is the list of the whole-file
    entropies of the [ceil(len / w)] chunks [data[i*w : (i+1)*w]], in
    order: element [i] is the entropy of chunk [i] alone, computed by the
    code written out in the loop, which equals [calculate_entropy]; no
    chunk is empty and only the last one can be shorter than [w]. *)
Theorem windowed_entropy_chunks (data : list byte) (w : Z) :
  (0 < w)%Z -> (w <= Z.of_nat (length data))%Z ->
  Visualize.calculate_local_entropy data w
  = Ok (map (fun i => Scanner.calculate_entropy
                        (slice data (i * Z.to_nat w) ((i + 1) * Z.to_nat w)))
            (seq 0 (ceil_div (length data) (Z.to_nat w))))
  /\ (0 < ceil_div (length data) (Z.to_nat w))%nat
  /\ exists profile,
       Visualize.calculate_local_entropy data w = Ok profile
       /\ length profile = ceil_div (length data) (Z.to_nat w)
       /\ forall i, (i < ceil_div (length data) (Z.to_nat w))%nat ->
            let chunk := slice data (i * Z.to_nat w) ((i + 1) * Z.to_nat w) in
            profile !! i = Some (Scanner.calculate_entropy chunk)
            /\ profile !! i = Some (Visualize.chunk_entropy chunk)
            /\ length chunk
               = Nat.min (Z.to_nat w) (length data - i * Z.to_nat w)
            /\ (0 < length chunk)%nat.
Proof.
  intros Hw Hle.
  assert (Hw' : (0 < Z.to_nat w)%nat) by lia.
  split; [apply local_entropy_chunks; assumption|].
  split.
  { rewrite (ceil_div_step (length data)) by lia. lia. }
  eexists. split; [apply local_entropy_chunks; assumption|].
  split; [rewrite length_map, length_seq; reflexivity|].
  intros i Hi chunk.
  pose proof (ceil_div_bounds _ _ _ Hw' Hi) as Hlt.
  assert (Hlen : length chunk
                 = Nat.min (Z.to_nat w) (length data - i * Z.to_nat w)).
  { subst chunk. rewrite slice_length. f_equal. lia. }
  assert (Hlook :
    map (fun k => Scanner.calculate_entropy
                    (slice data (k * Z.to_nat w) ((k + 1) * Z.to_nat w)))
        (seq 0 (ceil_div (length data) (Z.to_nat w))) !! i
    = Some (Scanner.calculate_entropy chunk)).
  { change (map ?f ?l) with (f <$> l).
    rewrite list_lookup_fmap, lookup_seq_lt by assumption. reflexivity. }
  repeat split.
  - exact Hlook.
  - rewrite chunk_entropy_eq. exact Hlook.
  - exact Hlen.
  - lia.
Qed.

Lemma windowed_entropy_chunks_witness :
  Visualize.calculate_local_entropy [x00; x01; x02; x03; x04] 2
  = Ok (map (fun i => Scanner.calculate_entropy
                        (slice [x00; x01; x02; x03; x04] (i * Z.to_nat 2)
                               ((i + 1) * Z.to_nat 2)))
            (seq 0 (ceil_div (length [x00; x01; x02; x03; x04])
                             (Z.to_nat 2))))
  /\ (0 < ceil_div (length [x00; x01; x02; x03; x04]) (Z.to_nat 2))%nat
  /\ exists profile,
       Visualize.calculate_local_entropy [x00; x01; x02; x03; x04] 2
       = Ok profile
       /\ length profile
          = ceil_div (length [x00; x01; x02; x03; x04]) (Z.to_nat 2)
       /\ forall i,
            (i < ceil_div (length [x00; x01; x02; x03; x04]) (Z.to_nat 2))%nat ->
            let chunk := slice [x00; x01; x02; x03; x04] (i * Z.to_nat 2)
                               ((i + 1) * Z.to_nat 2) in
            profile !! i = Some (Scanner.calculate_entropy chunk)
            /\ profile !! i = Some (Visualize.chunk_entropy chunk)
            /\ length chunk
               = Nat.min (Z.to_nat 2)
                         (length [x00; x01; x02; x03; x04] - i * Z.to_nat 2)
            /\ (0 < length chunk)%nat.
Proof.
  apply (windowed_entropy_chunks [x00; x01; x02; x03; x04] 2); simpl; lia.
Defined.

(** C3.  The fallback is missed when the truth test of [self.model]
    raises: the test stands before the [try], so for a loaded model such as
    an unfitted ensemble, whose [predict] would raise, the exception leaves
    [scan_file] with no verdict, while the heuristic called on the same
    feature vector gives one. *)
Theorem truth_test_escapes_fallback (HAS_NUMPY : bool) (entropy : R)
    (file_size : Z) (file_path : string) (data : list byte) :
  Scanner.classify HAS_NUMPY unfitted_scanner entropy file_size
  = [Scanner.LUncaught AttributeError]
  /\ Scanner.verdicts
       (Scanner.classify HAS_NUMPY unfitted_scanner entropy file_size) = []
  /\ (exists v,
        Scanner.verdicts (Scanner._heuristic_scan entropy file_size) = [v])
  /\ Scanner.scan_file HAS_NUMPY unfitted_scanner file_path
                       (Scanner.Readable data)
     = [Scanner.LScanning file_path; Scanner.LAnalysisResults;
        Scanner.LFileSize (Z.of_nat (length data));
        Scanner.LEntropy (Scanner.calculate_entropy data);
        Scanner.LUncaught AttributeError].
Proof.
  split; [reflexivity|]. split; [reflexivity|]. split; [|reflexivity].
  destruct (heuristic_one_verdict entropy file_size) as (st & r & ->).
  eexists. reflexivity.
Qed.

(** C4.  Two scans of a readable file that do not print exactly one
    verdict.  With a model whose truth test raises, the exception leaves
    [scan_file] and no verdict is printed.  With a model whose confidence
    the format [.2f] rejects, the [Verdict:] line is already printed when
    the [except] clause runs the heuristic, which prints a second one. *)
Theorem scan_verdict_miscount (file_path : string) (data : list byte)
    (label : Z) :
  Scanner.verdicts
    (Scanner.scan_file true unfitted_scanner file_path (Scanner.Readable data))
  = []
  /\ exists v,
       Scanner.verdicts
         (Scanner._heuristic_scan (Scanner.calculate_entropy data)
                                  (Z.of_nat (length data))) = [v]
       /\ Scanner.scan_file true (scanner_with (unformattable_model label))
                            file_path (Scanner.Readable data)
          = [Scanner.LScanning file_path; Scanner.LAnalysisResults;
             Scanner.LFileSize (Z.of_nat (length data));
             Scanner.LEntropy (Scanner.calculate_entropy data);
             Scanner.LVerdict (if (label =? 1)%Z then Scanner.MALICIOUS
                               else Scanner.BENIGN);
             Scanner.LInferenceFailed TypeError]
            ++ Scanner._heuristic_scan (Scanner.calculate_entropy data)
                                       (Z.of_nat (length data))
       /\ Scanner.verdicts
            (Scanner.scan_file true (scanner_with (unformattable_model label))
                               file_path (Scanner.Readable data))
          = [{| Scanner.status := if (label =? 1)%Z then Scanner.MALICIOUS
                                  else Scanner.BENIGN;
                Scanner.confidence := None;
                Scanner.reason := None |}; v].
Proof.
  split; [reflexivity|].
  destruct (heuristic_one_verdict (Scanner.calculate_entropy data)
              (Z.of_nat (length data))) as (st & r & Hh).
  assert (Hc : forall entropy file_size,
    Scanner.classify true (scanner_with (unformattable_model label))
                     entropy file_size
    = Scanner.LVerdict (if (label =? 1)%Z then Scanner.MALICIOUS
                        else Scanner.BENIGN)
        :: Scanner.LInferenceFailed TypeError
        :: Scanner._heuristic_scan entropy file_size) by reflexivity.
  eexists. split; [rewrite Hh; reflexivity|].
  cbn [Scanner.scan_file]. rewrite Hc, Hh. split; reflexivity.
Qed.

(** X21. When the truth test of [self.model] returns [True] and [predict]
    raises, the classification step prints what the heuristic prints on the
    same [(entropy, size)], after the failure notice when numpy is there;
    exactly one verdict is printed, the heuristic's, and no exception
    leaves the scan. *)
Theorem failed_model_falls_back (HAS_NUMPY : bool)
    (self : Scanner.SimpleScanner) (m : Scanner.Model) (e : Exception)
    (entropy : R) (file_size : Z) :
  Scanner.model self = Some m ->
  Scanner.predict m entropy file_size = Raise e ->
  Scanner.classify HAS_NUMPY self entropy file_size
  = (if HAS_NUMPY then [Scanner.LInferenceFailed e] else [])
      ++ Scanner._heuristic_scan entropy file_size
  /\ (exists v,
        Scanner.verdicts (Scanner._heuristic_scan entropy file_size) = [v]
        /\ Scanner.verdicts
             (Scanner.classify HAS_NUMPY self entropy file_size) = [v]
        /\ forall (file_path : string) (data : list byte),
             entropy = Scanner.calculate_entropy data ->
             file_size = Z.of_nat (length data) ->
             Scanner.verdicts
               (Scanner.scan_file HAS_NUMPY self file_path
                                  (Scanner.Readable data))
             = [v])
  /\ forall x, ~ In (Scanner.LUncaught x)
                    (Scanner.classify HAS_NUMPY self entropy file_size).
Proof.
  intros Hmodel Hraise.
  assert (Hout :
    Scanner.classify HAS_NUMPY self entropy file_size
    = (if HAS_NUMPY then [Scanner.LInferenceFailed e] else [])
        ++ Scanner._heuristic_scan entropy file_size).
  { unfold Scanner.classify, Scanner.model_scan, bind.
    rewrite Hmodel, Hraise. destruct HAS_NUMPY; reflexivity. }
  destruct (heuristic_one_verdict entropy file_size) as (st & r & Hh).
  assert (Hverdict :
    Scanner.verdicts (Scanner.classify HAS_NUMPY self entropy file_size)
    = Scanner.verdicts (Scanner._heuristic_scan entropy file_size)).
  { rewrite Hout. destruct HAS_NUMPY; reflexivity. }
  split; [exact Hout|]. split.
  - eexists. split; [rewrite Hh; reflexivity|]. split.
    + rewrite Hverdict, Hh. reflexivity.
    + intros file_path data -> ->.
      cbn [Scanner.scan_file app Scanner.verdicts].
      rewrite Hverdict, Hh. reflexivity.
  - intros x Hin. rewrite Hout, Hh in Hin.
    destruct HAS_NUMPY; simpl in Hin; intuition discriminate.
Qed.

Lemma failed_model_falls_back_witness :
  Scanner.classify true failing_scanner (1 / 2) 500
  = [Scanner.LInferenceFailed (ModelError "shape mismatch")]
      ++ Scanner._heuristic_scan (1 / 2) 500
  /\ (exists v,
        Scanner.verdicts (Scanner._heuristic_scan (1 / 2) 500) = [v]
        /\ Scanner.verdicts
             (Scanner.classify true failing_scanner (1 / 2) 500) = [v]
        /\ forall (file_path : string) (data : list byte),
             1 / 2 = Scanner.calculate_entropy data ->
             500%Z = Z.of_nat (length data) ->
             Scanner.verdicts
               (Scanner.scan_file true failing_scanner file_path
                                  (Scanner.Readable data))
             = [v])
  /\ forall x, ~ In (Scanner.LUncaught x)
                    (Scanner.classify true failing_scanner (1 / 2) 500).
Proof.
  apply (failed_model_falls_back true failing_scanner failing_model
                                 (ModelError "shape mismatch"));
    reflexivity.
Defined.

(** X22. A scan of a readable file prints exactly one verdict whenever the
    truth test of [self.model] returns and the model's confidence is a
    float (or there is no model): whatever else the model does, every call
    that can then raise comes before the first [print] of the [try]
    block. *)
Theorem scan_gives_one_verdict (HAS_NUMPY : bool)
    (self : Scanner.SimpleScanner) (file_path : string) (data : list byte) :
  (Scanner.model self = None -> Scanner.model_truth_error self = None) ->
  (forall m, Scanner.model self = Some m ->
             Scanner.predict_proba_objects m = None) ->
  (exists v,
      Scanner.verdicts
        (Scanner.scan_file HAS_NUMPY self file_path (Scanner.Readable data))
      = [v])
  /\ forall (entropy : R) (file_size : Z),
       exists v,
         Scanner.verdicts (Scanner.classify HAS_NUMPY self entropy file_size)
         = [v].
Proof.
  intros Htruth Hfloat.
  assert (Hstep : forall entropy file_size,
    exists v,
      Scanner.verdicts (Scanner.classify HAS_NUMPY self entropy file_size)
      = [v]).
  { intros entropy file_size.
    destruct (heuristic_one_verdict entropy file_size) as (st & r & Hh).
    destruct (classify_regular HAS_NUMPY self entropy file_size Htruth Hfloat)
      as [(st' & c & _ & _ & _ & ->)|[-> |(e & ->)]].
    - eexists; reflexivity.
    - rewrite Hh. eexists; reflexivity.
    - rewrite Hh. eexists; reflexivity. }
  split; [|exact Hstep].
  cbn [Scanner.scan_file app Scanner.verdicts]. apply Hstep.
Qed.

Lemma scan_gives_one_verdict_witness :
  (exists v,
      Scanner.verdicts
        (Scanner.scan_file true failing_scanner "sample.bin"
                           (Scanner.Readable [x00; x01]))
      = [v])
  /\ forall (entropy : R) (file_size : Z),
       exists v,
         Scanner.verdicts (Scanner.classify true failing_scanner entropy
                                            file_size)
         = [v].
Proof.
  apply (scan_gives_one_verdict true failing_scanner "sample.bin" [x00; x01]).
  - discriminate.
  - intros m [= <-]. reflexivity.
Defined.

(** C10. In a scan the heuristic receives [calculate_entropy data]: the
    test [entropy > 7.0] fails and [entropy < 3.0] holds, so the
    heuristic's output is decided by [len(data) > 10000] alone, and no scan
    ever prints the high-entropy reason. *)
Theorem scan_never_high_entropy (data : list byte) :
  ~ Scanner.calculate_entropy data > 7
  /\ Scanner.calculate_entropy data < 3
  /\ Rgtb (Scanner.calculate_entropy data) 7 = false
  /\ Rltb (Scanner.calculate_entropy data) 3 = true
  /\ Scanner._heuristic_scan (Scanner.calculate_entropy data)
                             (Z.of_nat (length data))
     = Scanner.LUsingHeuristic ::
       (if (10000 <? Z.of_nat (length data))%Z
        then [Scanner.LVerdict Scanner.SUSPICIOUS;
              Scanner.LReason Scanner.low_entropy_reason]
        else [Scanner.LVerdict Scanner.CLEAN;
              Scanner.LReason Scanner.normal_reason])
  /\ forall (HAS_NUMPY : bool) (self : Scanner.SimpleScanner)
            (file_path : string),
       ~ In (Scanner.LReason Scanner.high_entropy_reason)
            (Scanner.scan_file HAS_NUMPY self file_path
                               (Scanner.Readable data)).
Proof.
  pose proof (calculate_entropy_bounds data) as [Hlo Hhi].
  assert (Hgt : Rgtb (Scanner.calculate_entropy data) 7 = false)
    by (apply Rgtb_false; lra).
  assert (Hlt : Rltb (Scanner.calculate_entropy data) 3 = true)
    by (apply Rltb_true; lra).
  assert (Hh :
    Scanner._heuristic_scan (Scanner.calculate_entropy data)
                            (Z.of_nat (length data))
    = Scanner.LUsingHeuristic ::
      (if (10000 <? Z.of_nat (length data))%Z
       then [Scanner.LVerdict Scanner.SUSPICIOUS;
             Scanner.LReason Scanner.low_entropy_reason]
       else [Scanner.LVerdict Scanner.CLEAN;
             Scanner.LReason Scanner.normal_reason])).
  { unfold Scanner._heuristic_scan. rewrite Hgt, Hlt. reflexivity. }
  split; [lra|]. split; [lra|].
  split; [exact Hgt|]. split; [exact Hlt|]. split; [exact Hh|].
  intros HAS_NUMPY self file_path. cbn [Scanner.scan_file].
  intros Hin. apply in_app_or in Hin. destruct Hin as [Hin|Hin].
  - simpl in Hin. intuition discriminate.
  - destruct (classify_shape HAS_NUMPY self (Scanner.calculate_entropy data)
                (Z.of_nat (length data)))
      as [(st & c & _ & _ & _ & Hc)|[Hc|[(e & Hc)
          |[(m & st & e & _ & _ & _ & _ & _ & Hc)|(e & _ & _ & Hc)]]]];
      rewrite Hc in Hin; try rewrite Hh in Hin;
      destruct (10000 <? Z.of_nat (length data))%Z;
      simpl in Hin; intuition discriminate.
Qed.

(** C1, as the code has it.  For an entropy value above 7.0 the heuristic
    prints SUSPICIOUS with the high-entropy reason, whatever the size, and
    no confidence line. *)
Theorem heuristic_high_entropy_rule (entropy : R) (file_size : Z) :
  entropy > 7 ->
  Scanner._heuristic_scan entropy file_size
  = [Scanner.LUsingHeuristic; Scanner.LVerdict Scanner.SUSPICIOUS;
     Scanner.LReason Scanner.high_entropy_reason]
  /\ Scanner.verdicts (Scanner._heuristic_scan entropy file_size)
     = [{| Scanner.status := Scanner.SUSPICIOUS;
           Scanner.confidence := None;
           Scanner.reason := Some Scanner.high_entropy_reason |}].
Proof.
  intros Hgt. rewrite heuristic_high by assumption. split; reflexivity.
Qed.

Lemma heuristic_high_entropy_rule_witness :
  8 > 7
  /\ Scanner._heuristic_scan 8 1000
     = [Scanner.LUsingHeuristic; Scanner.LVerdict Scanner.SUSPICIOUS;
        Scanner.LReason Scanner.high_entropy_reason]
  /\ Scanner.verdicts (Scanner._heuristic_scan 8 1000)
     = [{| Scanner.status := Scanner.SUSPICIOUS;
           Scanner.confidence := None;
           Scanner.reason := Some Scanner.high_entropy_reason |}].
Proof.
  split; [lra|]. apply (heuristic_high_entropy_rule 8 1000). lra.
Defined.

(** C1 fails as stated: at entropy 0.9 and size 1000, above the 0.875 of the
    claim, the heuristic prints CLEAN with the normal reason and no
    confidence. *)
Lemma heuristic_high_entropy_counterexample :
  9 / 10 > 7 / 8
  /\ Scanner.verdicts (Scanner._heuristic_scan (9 / 10) 1000)
     = [{| Scanner.status := Scanner.CLEAN;
           Scanner.confidence := None;
           Scanner.reason := Some Scanner.normal_reason |}]
  /\ ~ (exists v,
          Scanner.verdicts (Scanner._heuristic_scan (9 / 10) 1000) = [v]
          /\ Scanner.status v = Scanner.SUSPICIOUS
          /\ Scanner.reason v = Some Scanner.high_entropy_reason
          /\ Scanner.confidence v = Some 100).
Proof.
  assert (Hout :
    Scanner.verdicts (Scanner._heuristic_scan (9 / 10) 1000)
    = [{| Scanner.status := Scanner.CLEAN;
          Scanner.confidence := None;
          Scanner.reason := Some Scanner.normal_reason |}]).
  { rewrite heuristic_clean; [reflexivity|lra|right; lia]. }
  split; [lra|]. split; [exact Hout|].
  rewrite Hout. intros (v & Hv & Hst & _). injection Hv as <-.
  discriminate Hst.
Qed.

(** C2, as the code has it.  For an entropy value of at most 0.875: below
    0.375 with a size above 10000 the heuristic prints SUSPICIOUS with the
    low-entropy reason; with a size of at most 10000 it prints CLEAN with
    the normal reason; neither branch prints a confidence line. *)
Theorem heuristic_low_entropy_rule (entropy : R) (file_size : Z) :
  entropy <= 7 / 8 ->
  (entropy < 3 / 8 -> (10000 < file_size)%Z ->
   Scanner.verdicts (Scanner._heuristic_scan entropy file_size)
   = [{| Scanner.status := Scanner.SUSPICIOUS;
         Scanner.confidence := None;
         Scanner.reason := Some Scanner.low_entropy_reason |}])
  /\ ((file_size <= 10000)%Z ->
      Scanner.verdicts (Scanner._heuristic_scan entropy file_size)
      = [{| Scanner.status := Scanner.CLEAN;
            Scanner.confidence := None;
            Scanner.reason := Some Scanner.normal_reason |}]).
Proof.
  intros Hle. split.
  - intros Hlow Hsize. rewrite heuristic_low; [reflexivity|lra|lra|assumption].
  - intros Hsize. rewrite heuristic_clean; [reflexivity|lra|right; assumption].
Qed.

Lemma heuristic_low_entropy_rule_witness :
  Scanner.verdicts (Scanner._heuristic_scan (1 / 5) 20000)
  = [{| Scanner.status := Scanner.SUSPICIOUS;
        Scanner.confidence := None;
        Scanner.reason := Some Scanner.low_entropy_reason |}]
  /\ Scanner.verdicts (Scanner._heuristic_scan (1 / 2) 500)
     = [{| Scanner.status := Scanner.CLEAN;
           Scanner.confidence := None;
           Scanner.reason := Some Scanner.normal_reason |}].
Proof.
  split.
  - apply (heuristic_low_entropy_rule (1 / 5) 20000); [lra|lra|lia].
  - apply (heuristic_low_entropy_rule (1 / 2) 500); [lra|lia].
Defined.

(** C2 fails as stated: at entropy 0.5 and size 20000 the claim's test
    [entropy < 0.375] is false, yet the heuristic prints SUSPICIOUS with the
    low-entropy reason, and no confidence. *)
Lemma heuristic_low_entropy_counterexample :
  1 / 2 <= 7 / 8
  /\ ~ (1 / 2 < 3 / 8 /\ (10000 < 20000)%Z)
  /\ Scanner.verdicts (Scanner._heuristic_scan (1 / 2) 20000)
     = [{| Scanner.status := Scanner.SUSPICIOUS;
           Scanner.confidence := None;
           Scanner.reason := Some Scanner.low_entropy_reason |}]
  /\ ~ (exists v,
          Scanner.verdicts (Scanner._heuristic_scan (1 / 2) 20000) = [v]
          /\ Scanner.status v = Scanner.CLEAN
          /\ Scanner.confidence v = Some 100).
Proof.
  assert (Hout :
    Scanner.verdicts (Scanner._heuristic_scan (1 / 2) 20000)
    = [{| Scanner.status := Scanner.SUSPICIOUS;
          Scanner.confidence := None;
          Scanner.reason := Some Scanner.low_entropy_reason |}]).
  { rewrite heuristic_low; [reflexivity|lra|lra|lia]. }
  split; [lra|]. split; [lra|]. split; [exact Hout|].
  rewrite Hout. intros (v & Hv & Hst & _). injection Hv as <-.
  discriminate Hst.
Qed.

(** * Further properties of the code *)

(** ** The entropy depends on the histogram alone *)

Lemma occurrences_app (i : nat) (xs ys : list byte) :
  occurrences i (xs ++ ys) = (occurrences i xs + occurrences i ys)%nat.
Proof.
  induction xs as [|b xs IH]; simpl; [reflexivity|]. rewrite IH. lia.
Qed.

Lemma occurrences_perm (i : nat) (xs ys : list byte) :
  xs ≡ₚ ys -> occurrences i xs = occurrences i ys.
Proof.
  induction 1 as [|b xs ys _ IH|a b xs|xs ys zs _ IH1 _ IH2]; simpl.
  - reflexivity.
  - rewrite IH. reflexivity.
  - lia.
  - congruence.
Qed.

Lemma histogram_ext (xs ys : list byte) :
  (forall i, (i < 256)%nat -> occurrences i xs = occurrences i ys) ->
  Scanner.byte_histogram xs = Scanner.byte_histogram ys.
Proof.
  intros Hocc. apply list_eq. intros i.
  destruct (Nat.lt_ge_cases i 256) as [Hi|Hi].
  - rewrite !histogram_lookup by assumption. f_equal. apply Hocc; assumption.
  - rewrite !lookup_ge_None_2; [reflexivity| |];
      rewrite histogram_length; assumption.
Qed.

Lemma histogram_as_map (data : list byte) :
  Scanner.byte_histogram data
  = map (fun i => occurrences i data) (seq 0 256).
Proof.
  apply list_eq. intros i. change (map ?f ?l) with (f <$> l).
  rewrite list_lookup_fmap.
  destruct (Nat.lt_ge_cases i 256) as [Hi|Hi].
  - rewrite histogram_lookup, lookup_seq_lt by assumption. reflexivity.
  - rewrite !lookup_ge_None_2; [reflexivity| |].
    + rewrite length_seq. assumption.
    + rewrite histogram_length. assumption.
Qed.

(** X1. The histogram loop keeps 256 buckets, bucket [b] holds the number
    of occurrences of byte [b], and the buckets add up to [len(data)]. *)
Theorem histogram_counts (data : list byte) :
  length (Scanner.byte_histogram data) = 256%nat
  /\ (forall b : byte,
        Scanner.byte_histogram data !! Byte.to_nat b
        = Some (occurrences (Byte.to_nat b) data))
  /\ sum_list (Scanner.byte_histogram data) = length data.
Proof.
  split; [apply histogram_length|]. split; [|apply histogram_sum].
  intros b. apply histogram_lookup.
  pose proof (Byte.to_nat_bounded b). lia.
Qed.

(** X2. Reordering the bytes of a buffer does not change its entropy. *)
Theorem entropy_permutation (data data' : list byte) :
  data ≡ₚ data' ->
  Scanner.calculate_entropy data = Scanner.calculate_entropy data'.
Proof.
  intros Hperm. rewrite !calculate_entropy_sum.
  rewrite (Permutation_length Hperm).
  rewrite (histogram_ext data data'); [reflexivity|].
  intros i _. apply occurrences_perm. exact Hperm.
Qed.

Lemma entropy_permutation_witness :
  Scanner.calculate_entropy [x00; x01; x01]
  = Scanner.calculate_entropy [x01; x00; x01].
Proof.
  apply (entropy_permutation [x00; x01; x01] [x01; x00; x01]).
  apply perm_swap.
Defined.

(** ** Repeating a buffer *)

Lemma occurrences_repeat_data (i k : nat) (data : list byte) :
  occurrences i (repeat_data k data) = (k * occurrences i data)%nat.
Proof.
  unfold repeat_data. induction k as [|k IH]; simpl; [reflexivity|].
  rewrite occurrences_app, IH. lia.
Qed.

Lemma length_repeat_data (k : nat) (data : list byte) :
  length (repeat_data k data) = (k * length data)%nat.
Proof.
  unfold repeat_data. induction k as [|k IH]; simpl; [reflexivity|].
  rewrite length_app, IH. lia.
Qed.

Lemma entropy_term_scale (k total count : nat) :
  (0 < k)%nat -> (0 < total)%nat ->
  entropy_term (k * total) (k * count) = entropy_term total count.
Proof.
  intros Hk Ht. unfold entropy_term.
  destruct (Nat.eqb_spec count 0) as [->|Hc].
  - rewrite Nat.mul_0_r. reflexivity.
  - destruct (Nat.eqb_spec (k * count) 0) as [H0|_]; [nia|].
    rewrite !mult_INR.
    apply lt_0_INR in Hk, Ht.
    replace (1 * (INR k * INR count) / (INR k * INR total))
      with (1 * INR count / INR total) by (field; lra).
    reflexivity.
Qed.

(** X4. Writing a buffer [k >= 1] times in a row leaves the entropy as it
    is: the value does not depend on the size of the input. *)
Theorem entropy_repeat_data (k : nat) (data : list byte) :
  (1 <= k)%nat ->
  Scanner.calculate_entropy (repeat_data k data)
  = Scanner.calculate_entropy data.
Proof.
  intros Hk. destruct data as [|b rest].
  - replace (repeat_data k []) with (@nil byte); [reflexivity|].
    unfold repeat_data. clear Hk. induction k; simpl; auto.
  - set (data := b :: rest).
    rewrite !calculate_entropy_sum, length_repeat_data.
    rewrite (histogram_as_map (repeat_data k data)), (histogram_as_map data).
    rewrite !map_map. f_equal. apply map_ext. intros i.
    rewrite occurrences_repeat_data.
    apply entropy_term_scale; [lia|]. subst data. simpl. lia.
Qed.

Lemma entropy_repeat_data_witness :
  Scanner.calculate_entropy (repeat_data 3 [x00; x01; x01])
  = Scanner.calculate_entropy [x00; x01; x01].
Proof.
  apply (entropy_repeat_data 3 [x00; x01; x01]). lia.
Defined.

(** ** Recoding the byte values *)

Lemma Rsum_perm (xs ys : list R) : xs ≡ₚ ys -> Rsum xs = Rsum ys.
Proof.
  unfold Rsum.
  induction 1 as [|x xs ys _ IH|x y xs|xs ys zs _ IH1 _ IH2]; simpl; lra.
Qed.

Lemma map_as_fmap {A B : Type} (f : A -> B) (l : list A) : map f l = f <$> l.
Proof. induction l as [|x l IH]; simpl; [reflexivity|]. rewrite IH. reflexivity. Qed.

Lemma all_bytes_codes : map Byte.to_nat all_bytes = seq 0 256.
Proof. vm_compute. reflexivity. Qed.

Lemma all_bytes_complete (b : byte) : b ∈ all_bytes.
Proof.
  unfold all_bytes. apply list_elem_of_omap.
  exists (Byte.to_nat b). split; [|apply Byte.of_to_nat].
  apply elem_of_seq. pose proof (Byte.to_nat_bounded b). lia.
Qed.

Lemma all_bytes_NoDup : NoDup all_bytes.
Proof.
  apply (NoDup_fmap_1 Byte.to_nat).
  rewrite <- map_as_fmap, all_bytes_codes. apply NoDup_seq.
Qed.

Lemma entropy_as_byte_sum (data : list byte) :
  Scanner.calculate_entropy data
  = Rsum (map (fun b => entropy_term (length data)
                                     (occurrences (Byte.to_nat b) data))
              all_bytes).
Proof.
  rewrite calculate_entropy_sum, histogram_as_map, <- all_bytes_codes.
  rewrite !map_map. reflexivity.
Qed.

Lemma occurrences_recode (f g : byte -> byte) (b : byte) (data : list byte) :
  (forall x, g (f x) = x) -> (forall x, f (g x) = x) ->
  occurrences (Byte.to_nat b) (map f data)
  = occurrences (Byte.to_nat (g b)) data.
Proof.
  intros Hgf Hfg. induction data as [|x data IH]; simpl; [reflexivity|].
  rewrite IH. f_equal.
  destruct (Nat.eqb_spec (Byte.to_nat (f x)) (Byte.to_nat b)) as [Heq|Hne];
    destruct (Nat.eqb_spec (Byte.to_nat x) (Byte.to_nat (g b))) as [Heq'|Hne'];
    try reflexivity; exfalso.
  - apply Hne'. apply to_nat_inj in Heq. rewrite <- Heq, Hgf. reflexivity.
  - apply Hne. apply to_nat_inj in Heq'. rewrite Heq', Hfg. reflexivity.
Qed.

(** X3. Replacing every byte through a one-to-one recoding of the byte
    values (XOR with a fixed key, for one) does not change the entropy. *)
Theorem entropy_recode (f g : byte -> byte) (data : list byte) :
  (forall x, g (f x) = x) -> (forall x, f (g x) = x) ->
  Scanner.calculate_entropy (map f data) = Scanner.calculate_entropy data.
Proof.
  intros Hgf Hfg. rewrite !entropy_as_byte_sum, length_map.
  erewrite map_ext
    by (intros b; rewrite (occurrences_recode f g) by assumption;
        reflexivity).
  rewrite <- (map_map g (fun b => entropy_term (length data)
                                    (occurrences (Byte.to_nat b) data))).
  apply Rsum_perm, Permutation_map.
  apply NoDup_Permutation.
  - rewrite map_as_fmap.
    assert (Hinj : Inj (=) (=) g).
    { intros x y Hxy. rewrite <- (Hfg x), <- (Hfg y), Hxy. reflexivity. }
    apply NoDup_fmap_2; [exact Hinj|apply all_bytes_NoDup].
  - apply all_bytes_NoDup.
  - intros b. split; intros _; [apply all_bytes_complete|].
    rewrite map_as_fmap.
    apply list_elem_of_fmap. exists (f b). split; [symmetry; apply Hgf|].
    apply all_bytes_complete.
Qed.

Lemma entropy_recode_witness :
  Scanner.calculate_entropy (map complement_byte [x00; x01; x01; xff])
  = Scanner.calculate_entropy [x00; x01; x01; xff].
Proof.
  apply (entropy_recode complement_byte complement_byte);
    intros b; destruct b; reflexivity.
Defined.

(** ** A sharper upper bound *)

Lemma entropy_term_upper_gen (K : R) (total count : nat) :
  0 < K -> (0 < total)%nat -> (0 < count)%nat ->
  entropy_term total count * ln 256
  <= / K - INR count / INR total + INR count / INR total * ln K.
Proof.
  intros HK Ht Hc. unfold entropy_term.
  destruct (Nat.eqb_spec count 0) as [|_]; [lia|].
  pose proof (ratio_pos total count Ht Hc) as Hp.
  rewrite Rmult_1_l in *.
  set (p := INR count / INR total) in *.
  pose proof ln256_pos as H256. unfold math_log.
  replace (- (p * (ln p / ln 256)) * ln 256) with (- (p * ln p))
    by (field; lra).
  assert (HKp : 0 < K * p) by (apply Rmult_lt_0_compat; assumption).
  assert (Hx : 0 < / (K * p)) by (apply Rinv_0_lt_compat; assumption).
  pose proof (ln_le_pred _ Hx) as Hln.
  rewrite (ln_Rinv _ HKp), (ln_mult _ _ HK Hp) in Hln.
  assert (Hm : p * - (ln K + ln p) <= p * (/ (K * p) - 1)).
  { apply Rmult_le_compat_l; lra. }
  replace (p * (/ (K * p) - 1)) with (/ K - p) in Hm by (field; lra).
  lra.
Qed.

Lemma entropy_sum_upper_gen (K : R) (total : nat) (h : list nat) :
  0 < K -> (0 < total)%nat ->
  Rsum (map (entropy_term total) h) * ln 256
  <= INR (length (List.filter (fun c => negb (c =? 0)%nat) h)) / K
     - INR (sum_list h) / INR total
     + INR (sum_list h) / INR total * ln K.
Proof.
  intros HK Ht. induction h as [|c h IH].
  - simpl. unfold Rdiv. rewrite !Rmult_0_l. lra.
  - change (Rsum (map (entropy_term total) (c :: h)))
      with (entropy_term total c + Rsum (map (entropy_term total) h)).
    change (sum_list (c :: h)) with (c + sum_list h)%nat.
    cbn [List.filter]. destruct (Nat.eqb_spec c 0) as [->|Hc]; cbn [negb].
    + unfold entropy_term at 1. simpl (0 =? 0)%nat. cbv iota.
      rewrite Nat.add_0_l. lra.
    + pose proof (entropy_term_upper_gen K total c HK Ht ltac:(lia)) as Hc'.
      change (length (c :: ?l)) with (S (length l)).
      rewrite S_INR, plus_INR. unfold Rdiv in *. lra.
Qed.

Lemma nonzero_buckets_le_sum (h : list nat) :
  (length (List.filter (fun c => negb (c =? 0)%nat) h) <= sum_list h)%nat.
Proof.
  induction h as [|c h IH]; simpl; [lia|].
  destruct (Nat.eqb_spec c 0); simpl; lia.
Qed.

Lemma nonzero_buckets_le_length (h : list nat) :
  (length (List.filter (fun c => negb (c =? 0)%nat) h) <= length h)%nat.
Proof.
  induction h as [|c h IH]; simpl; [lia|].
  destruct (Nat.eqb_spec c 0); simpl; lia.
Qed.

Lemma nonzero_buckets_pos (h : list nat) :
  (0 < sum_list h)%nat ->
  (0 < length (List.filter (fun c => negb (c =? 0)%nat) h))%nat.
Proof.
  induction h as [|c h IH]; simpl; [lia|].
  destruct (Nat.eqb_spec c 0); simpl; [|lia].
  intros Hs. apply IH. lia.
Qed.

Lemma ln_le_mono (x y : R) : 0 < x -> x <= y -> ln x <= ln y.
Proof.
  intros Hx [Hlt| ->]; [|lra]. left. apply ln_increasing; assumption.
Qed.

Lemma distinct_values_bounds (data : list byte) :
  data <> [] ->
  (1 <= distinct_values data)%nat
  /\ (distinct_values data <= 256)%nat
  /\ (distinct_values data <= length data)%nat.
Proof.
  intros Hne. unfold distinct_values. repeat split.
  - apply nonzero_buckets_pos. rewrite histogram_sum.
    destruct data; [congruence|simpl; lia].
  - rewrite <- (histogram_length data). apply nonzero_buckets_le_length.
  - rewrite <- (histogram_sum data). apply nonzero_buckets_le_sum.
Qed.

Lemma entropy_le_log_distinct (data : list byte) :
  data <> [] ->
  Scanner.calculate_entropy data
  <= ln (INR (distinct_values data)) / ln 256.
Proof.
  intros Hne.
  destruct (distinct_values_bounds data Hne) as (Hm1 & _ & _).
  assert (Ht : (0 < length data)%nat)
    by (destruct data; [congruence|simpl; lia]).
  assert (HK : 0 < INR (distinct_values data)) by (apply lt_0_INR; lia).
  pose proof (entropy_sum_upper_gen _ (length data)
                (Scanner.byte_histogram data) HK Ht) as Hup.
  fold (distinct_values data) in Hup.
  rewrite histogram_sum, <- calculate_entropy_sum in Hup.
  apply lt_0_INR in Ht. pose proof ln256_pos as H256.
  unfold Rdiv in Hup. rewrite !Rinv_r in Hup by lra.
  apply Rmult_le_reg_r with (ln 256); [assumption|].
  unfold Rdiv. rewrite Rmult_assoc, Rinv_l by lra. lra.
Qed.

(** X5. A buffer in which [m] different byte values occur has entropy at
    most [log_256 m], and so at most [log_256 len(data)]: a buffer shorter
    than 256 bytes cannot reach 1. *)
Theorem entropy_le_log_size (data : list byte) :
  data <> [] ->
  Scanner.calculate_entropy data <= ln (INR (distinct_values data)) / ln 256
  /\ ln (INR (distinct_values data)) / ln 256
     <= ln (INR (length data)) / ln 256
  /\ ((length data < 256)%nat -> Scanner.calculate_entropy data < 1).
Proof.
  intros Hne.
  destruct (distinct_values_bounds data Hne) as (Hm1 & Hm256 & Hmlen).
  pose proof (entropy_le_log_distinct data Hne) as Hle.
  pose proof ln256_pos as H256.
  assert (HK : 0 < INR (distinct_values data)) by (apply lt_0_INR; lia).
  assert (Hmono : ln (INR (distinct_values data)) <= ln (INR (length data))).
  { apply ln_le_mono; [assumption|]. apply le_INR. assumption. }
  assert (Hinv : 0 < / ln 256) by (apply Rinv_0_lt_compat; assumption).
  split; [assumption|]. split.
  - unfold Rdiv. apply Rmult_le_compat_r; lra.
  - intros Hshort.
    assert (Hlt : ln (INR (length data)) < ln 256).
    { apply ln_increasing.
      - apply lt_0_INR. lia.
      - replace 256 with (INR 256) by (simpl; lra). apply lt_INR. assumption. }
    assert (ln (INR (length data)) / ln 256 < 1).
    { unfold Rdiv. replace 1 with (ln 256 * / ln 256) by (field; lra).
      apply Rmult_lt_compat_r; assumption. }
    unfold Rdiv in *.
    assert (ln (INR (distinct_values data)) * / ln 256
            <= ln (INR (length data)) * / ln 256)
      by (apply Rmult_le_compat_r; lra).
    lra.
Qed.

Lemma entropy_le_log_size_witness :
  Scanner.calculate_entropy [x00; x01; x02]
  <= ln (INR (distinct_values [x00; x01; x02])) / ln 256
  /\ ln (INR (distinct_values [x00; x01; x02])) / ln 256
     <= ln (INR (length [x00; x01; x02])) / ln 256
  /\ ((length [x00; x01; x02] < 256)%nat ->
      Scanner.calculate_entropy [x00; x01; x02] < 1).
Proof.
  apply (entropy_le_log_size [x00; x01; x02]). discriminate.
Defined.

Lemma entropy_le_log_length (data : list byte) :
  data <> [] ->
  Scanner.calculate_entropy data <= ln (INR (length data)) / ln 256.
Proof.
  intros Hne.
  destruct (distinct_values_bounds data Hne) as (Hm1 & _ & Hmlen).
  pose proof (entropy_le_log_distinct data Hne) as Hle.
  pose proof ln256_pos as H256.
  assert (Hmono : ln (INR (distinct_values data)) <= ln (INR (length data))).
  { apply ln_le_mono; [apply lt_0_INR; lia|]. apply le_INR. assumption. }
  assert (Hinv : 0 < / ln 256) by (apply Rinv_0_lt_compat; assumption).
  assert (ln (INR (distinct_values data)) / ln 256
          <= ln (INR (length data)) / ln 256)
    by (unfold Rdiv; apply Rmult_le_compat_r; lra).
  lra.
Qed.

(** ** More on the windowed profile *)

(** X6. A window size of 0 makes [calculate_local_entropy] raise
    [ValueError] for every buffer, the empty one included; a negative
    window size raises nothing and returns the empty profile. *)
Theorem window_not_positive (data : list byte) (w : Z) :
  (w <= 0)%Z ->
  Visualize.calculate_local_entropy data w
  = if (w =? 0)%Z then Raise ValueError else Ok [].
Proof.
  intros Hw. unfold Visualize.calculate_local_entropy.
  destruct (Z.ltb_spec (Z.of_nat (length data)) w) as [Hlt|_]; [lia|].
  destruct w as [|p|p]; [reflexivity|lia|reflexivity].
Qed.

Lemma window_not_positive_witness :
  Visualize.calculate_local_entropy [] 0 = Raise ValueError
  /\ Visualize.calculate_local_entropy [x00; x01; x02] 0 = Raise ValueError
  /\ Visualize.calculate_local_entropy [x00; x01; x02] (-2) = Ok [].
Proof.
  split; [|split].
  - apply (window_not_positive [] 0). lia.
  - apply (window_not_positive [x00; x01; x02] 0). lia.
  - apply (window_not_positive [x00; x01; x02] (-2)). lia.
Defined.

Lemma ceil_div_self (w : nat) : (0 < w)%nat -> ceil_div w w = 1%nat.
Proof.
  intros Hw. rewrite (ceil_div_step w w) by assumption.
  rewrite Nat.sub_diag, ceil_div_zero by assumption. reflexivity.
Qed.

Lemma slice_all {A : Type} (data : list A) :
  slice data 0 (length data) = data.
Proof.
  unfold slice. rewrite Nat.sub_0_r, drop_0. apply firstn_all.
Qed.

(** X8. The [[0]] returned for a buffer shorter than the window is also
    the profile of a buffer made of exactly one window of a single repeated
    byte: the two cannot be told apart from the result. *)
Theorem sentinel_is_ambiguous (data : list byte) (b : byte) (w : Z) :
  (0 < w)%Z -> (Z.of_nat (length data) < w)%Z ->
  Visualize.calculate_local_entropy data w = Ok [0]
  /\ Visualize.calculate_local_entropy (replicate (Z.to_nat w) b) w = Ok [0].
Proof.
  intros Hw Hshort. split; [apply local_entropy_short; assumption|].
  rewrite local_entropy_chunks by (rewrite ?length_replicate; lia).
  rewrite length_replicate, ceil_div_self by lia.
  cbn [seq map]. rewrite Nat.mul_0_l, Nat.mul_1_l.
  rewrite <- (length_replicate (Z.to_nat w) b) at 2.
  rewrite slice_all, entropy_replicate. reflexivity.
Qed.

Lemma sentinel_is_ambiguous_witness :
  Visualize.calculate_local_entropy [x0a; xff] 4 = Ok [0]
  /\ Visualize.calculate_local_entropy (replicate (Z.to_nat 4) x41) 4 = Ok [0].
Proof.
  apply (sentinel_is_ambiguous [x0a; xff] x41 4); simpl; lia.
Defined.

(** X9. With [len(data) >= w > 0] every value of the profile is at most
    [log_256 w]: a window of fewer than 256 bytes keeps every block
    strictly below 1. *)
Theorem profile_le_log_window (data : list byte) (w : Z) (profile : list R) :
  (0 < w)%Z -> (w <= Z.of_nat (length data))%Z ->
  Visualize.calculate_local_entropy data w = Ok profile ->
  Forall (fun e => e <= ln (IZR w) / ln 256) profile
  /\ ((w < 256)%Z -> Forall (fun e => e < 1) profile).
Proof.
  intros Hw Hle Hrun.
  rewrite local_entropy_chunks in Hrun by assumption.
  injection Hrun as <-.
  pose proof ln256_pos as H256.
  assert (Hinv : 0 < / ln 256) by (apply Rinv_0_lt_compat; assumption).
  assert (Hall : forall k,
    k ∈ seq 0 (ceil_div (length data) (Z.to_nat w)) ->
    Scanner.calculate_entropy
      (slice data (k * Z.to_nat w) ((k + 1) * Z.to_nat w))
    <= ln (IZR w) / ln 256).
  { intros k Hk. apply elem_of_seq in Hk.
    assert (Hw' : (0 < Z.to_nat w)%nat) by lia.
    assert (Hlt : (k * Z.to_nat w < length data)%nat)
      by (apply ceil_div_bounds; [assumption|lia]).
    pose proof (slice_length data (k * Z.to_nat w) ((k + 1) * Z.to_nat w))
      as Hlen.
    set (chunk := slice data (k * Z.to_nat w) ((k + 1) * Z.to_nat w)) in *.
    assert (Hpos : (0 < length chunk)%nat) by lia.
    assert (Hne : chunk <> []) by (intros ->; simpl in Hpos; lia).
    pose proof (entropy_le_log_length chunk Hne) as Hbound.
    assert (Hmono : ln (INR (length chunk)) <= ln (IZR w)).
    { apply ln_le_mono; [apply lt_0_INR; assumption|].
      rewrite INR_IZR_INZ. apply IZR_le. lia. }
    assert (ln (INR (length chunk)) / ln 256 <= ln (IZR w) / ln 256)
      by (unfold Rdiv; apply Rmult_le_compat_r; lra).
    lra. }
  split.
  - apply Forall_map, Forall_forall. exact Hall.
  - intros Hsmall. apply Forall_map, Forall_forall. intros k Hk.
    specialize (Hall k Hk).
    assert (Hlt : ln (IZR w) < ln 256).
    { apply ln_increasing; [apply IZR_lt; assumption|].
      apply IZR_lt. assumption. }
    assert (ln (IZR w) / ln 256 < 1).
    { unfold Rdiv. replace 1 with (ln 256 * / ln 256) by (field; lra).
      apply Rmult_lt_compat_r; assumption. }
    cbv beta. lra.
Qed.

Lemma profile_le_log_window_witness :
  Forall (fun e => e <= ln (IZR 2) / ln 256)
         [Visualize.chunk_entropy [x00; x01]; Visualize.chunk_entropy [x01]]
  /\ ((2 < 256)%Z ->
      Forall (fun e => e < 1)
             [Visualize.chunk_entropy [x00; x01];
              Visualize.chunk_entropy [x01]]).
Proof.
  apply (profile_le_log_window [x00; x01; x01] 2); [lia|simpl; lia|reflexivity].
Defined.

Lemma ceil_div_add_multiple (k n w : nat) :
  (0 < w)%nat -> ceil_div (k * w + n) w = (k + ceil_div n w)%nat.
Proof.
  intros Hw. unfold ceil_div.
  replace (k * w + n + w - 1)%nat with (n + w - 1 + k * w)%nat by lia.
  rewrite Nat.div_add by lia. lia.
Qed.

Lemma slice_app_left {A : Type} (xs ys : list A) (lo hi : nat) :
  (hi <= length xs)%nat -> slice (xs ++ ys) lo hi = slice xs lo hi.
Proof.
  intros Hhi. unfold slice.
  destruct (Nat.le_gt_cases lo hi) as [Hle|Hgt].
  - rewrite drop_app_le by lia.
    rewrite take_app_le by (rewrite length_drop; lia). reflexivity.
  - replace (hi - lo)%nat with 0%nat by lia. reflexivity.
Qed.

Lemma slice_app_right {A : Type} (xs ys : list A) (lo hi : nat) :
  slice (xs ++ ys) (length xs + lo) (length xs + hi) = slice ys lo hi.
Proof.
  unfold slice. rewrite drop_app_ge by lia.
  f_equal; [lia|]. f_equal. lia.
Qed.

Lemma chunks_app (xs ys : list byte) (k w : nat) :
  (0 < w)%nat -> length xs = (k * w)%nat ->
  map (fun i => Scanner.calculate_entropy
                  (slice (xs ++ ys) (i * w) ((i + 1) * w)))
      (seq 0 (ceil_div (length (xs ++ ys)) w))
  = map (fun i => Scanner.calculate_entropy (slice xs (i * w) ((i + 1) * w)))
        (seq 0 (ceil_div (length xs) w))
    ++ map (fun i => Scanner.calculate_entropy
                       (slice ys (i * w) ((i + 1) * w)))
           (seq 0 (ceil_div (length ys) w)).
Proof.
  intros Hw Hlen. rewrite length_app, Hlen.
  rewrite ceil_div_add_multiple by assumption.
  replace (ceil_div (k * w) w) with k
    by (rewrite <- (Nat.add_0_r (k * w)), ceil_div_add_multiple,
          ceil_div_zero by assumption; lia).
  rewrite seq_app, map_app. f_equal.
  - apply map_ext_in. intros i Hi. apply in_seq in Hi.
    rewrite slice_app_left; [reflexivity|]. rewrite Hlen. nia.
  - rewrite Nat.add_0_l.
    assert (Hshift : forall m, seq k m = map (Nat.add k) (seq 0 m)).
    { intros m. rewrite map_as_fmap, fmap_add_seq, Nat.add_0_r.
      reflexivity. }
    rewrite Hshift, map_map.
    apply map_ext. intros j.
    replace ((k + j) * w)%nat with (length xs + j * w)%nat by lia.
    replace ((k + j + 1) * w)%nat with (length xs + (j + 1) * w)%nat by lia.
    rewrite slice_app_right. reflexivity.
Qed.

(** X7. When the first buffer is a whole number [k >= 1] of windows, the
    profile of a concatenation is the profile of the first buffer followed
    by that of the second (if the second holds at least one window) or by
    the entropy of the second as one last block (if it is shorter, and not
    empty). *)
Theorem profile_of_concatenation (xs ys : list byte) (k : nat) (w : Z) :
  (0 < w)%Z -> (1 <= k)%nat -> length xs = (k * Z.to_nat w)%nat ->
  exists first,
    Visualize.calculate_local_entropy xs w = Ok first
    /\ length first = k
    /\ ((w <= Z.of_nat (length ys))%Z ->
        exists second,
          Visualize.calculate_local_entropy ys w = Ok second
          /\ Visualize.calculate_local_entropy (xs ++ ys) w
             = Ok (first ++ second))
    /\ ((0 < Z.of_nat (length ys) < w)%Z ->
        Visualize.calculate_local_entropy (xs ++ ys) w
        = Ok (first ++ [Scanner.calculate_entropy ys])).
Proof.
  intros Hw Hk Hlen.
  assert (Hw' : (0 < Z.to_nat w)%nat) by lia.
  assert (Hxs : (w <= Z.of_nat (length xs))%Z) by nia.
  eexists. split; [apply local_entropy_chunks; assumption|].
  split.
  { rewrite length_map, length_seq, Hlen.
    rewrite <- (Nat.add_0_r (k * Z.to_nat w)), ceil_div_add_multiple,
      ceil_div_zero by assumption. lia. }
  split.
  - intros Hys. eexists. split; [apply local_entropy_chunks; assumption|].
    rewrite local_entropy_chunks by (rewrite ?length_app; lia).
    f_equal. apply chunks_app with k; assumption.
  - intros Hys.
    rewrite local_entropy_chunks by (rewrite ?length_app; lia).
    f_equal. rewrite (chunks_app xs ys k) by assumption. f_equal.
    rewrite (ceil_div_step (length ys)) by lia.
    replace (length ys - Z.to_nat w)%nat with 0%nat by lia.
    rewrite ceil_div_zero by assumption.
    cbn [seq map]. rewrite Nat.mul_0_l, Nat.mul_1_l.
    unfold slice. rewrite Nat.sub_0_r, drop_0, take_ge by lia. reflexivity.
Qed.

Lemma profile_of_concatenation_witness :
  exists first,
    Visualize.calculate_local_entropy [x00; x01; x02; x03] 2 = Ok first
    /\ length first = 2%nat
    /\ ((2 <= Z.of_nat (length [x0a; x0a; x0b]))%Z ->
        exists second,
          Visualize.calculate_local_entropy [x0a; x0a; x0b] 2 = Ok second
          /\ Visualize.calculate_local_entropy
               ([x00; x01; x02; x03] ++ [x0a; x0a; x0b]) 2
             = Ok (first ++ second))
    /\ ((0 < Z.of_nat (length [x0a; x0a; x0b]) < 2)%Z ->
        Visualize.calculate_local_entropy
          ([x00; x01; x02; x03] ++ [x0a; x0a; x0b]) 2
        = Ok (first ++ [Scanner.calculate_entropy [x0a; x0a; x0b]])).
Proof.
  apply (profile_of_concatenation [x00; x01; x02; x03] [x0a; x0a; x0b] 2 2);
    [lia|lia|reflexivity].
Defined.

(** ** The model path of [scan_file] *)

Lemma fold_Rmax_ge_init (rest : list R) (x : R) : x <= fold_left Rmax rest x.
Proof.
  revert x; induction rest as [|y rest IH]; intros x; simpl; [lra|].
  eapply Rle_trans; [apply (Rmax_l x y)|apply IH].
Qed.

Lemma fold_Rmax_ge_all (rest : list R) (x : R) :
  Forall (fun y => y <= fold_left Rmax rest x) rest.
Proof.
  revert x; induction rest as [|y rest IH]; intros x; simpl; constructor.
  - eapply Rle_trans; [apply (Rmax_r x y)|apply fold_Rmax_ge_init].
  - apply IH.
Qed.

Lemma fold_Rmax_in (rest : list R) (x : R) :
  fold_left Rmax rest x ∈ x :: rest.
Proof.
  revert x; induction rest as [|y rest IH]; intros x; simpl.
  - left.
  - specialize (IH (Rmax x y)).
    apply elem_of_cons in IH. destruct IH as [Heq|Hin].
    + rewrite Heq. unfold Rmax. destruct (Rle_dec x y).
      * right; left.
      * left.
    + right; right. exact Hin.
Qed.

Lemma Rsum_le_length_max (row : list R) (top : R) :
  Forall (fun p => p <= top) row -> Rsum row <= INR (length row) * top.
Proof.
  induction 1 as [|p row Hp _ IH].
  - simpl. lra.
  - change (Rsum (p :: row)) with (p + Rsum row).
    change (length (p :: row)) with (S (length row)).
    rewrite S_INR. lra.
Qed.

Lemma heuristic_starts_with_banner (entropy : R) (file_size : Z) :
  exists rest,
    Scanner._heuristic_scan entropy file_size
    = Scanner.LUsingHeuristic :: rest.
Proof. unfold Scanner._heuristic_scan. eauto. Qed.

(** X10. With numpy and a model whose truth test passed, the scan prints
    the pair [Verdict: st], [Confidence: c] and nothing else exactly when
    [predict] returns a non-empty label array whose first label gives [st]
    (MALICIOUS for 1, BENIGN for any other label) and either the model has
    no [predict_proba] and [c] is 100, or its [predict_proba] returns floats
    with a non-empty first row and [c] is 100 times the largest of them. *)
Theorem model_answer_used (self : Scanner.SimpleScanner) (m : Scanner.Model)
    (entropy : R) (file_size : Z) (st : Scanner.Status) (c : R) :
  Scanner.model self = Some m ->
  Scanner.classify true self entropy file_size
  = [Scanner.LVerdict st; Scanner.LConfidence c]
  <-> exists label labels,
        Scanner.predict m entropy file_size = Ok (label :: labels)
        /\ st = (if (label =? 1)%Z then Scanner.MALICIOUS
                 else Scanner.BENIGN)
        /\ ((Scanner.predict_proba m = None
             /\ Scanner.predict_proba_objects m = None
             /\ c = 100)
            \/ exists proba p row more,
                 Scanner.predict_proba m = Some proba
                 /\ proba entropy file_size = Ok ((p :: row) :: more)
                 /\ c = fold_left Rmax row p * 100).
Proof.
  intros Hmodel.
  unfold Scanner.classify, Scanner.model_scan, bind. rewrite Hmodel.
  destruct (heuristic_starts_with_banner entropy file_size) as [rest Hh].
  split.
  - intros Hout.
    destruct (Scanner.predict m entropy file_size) as [prediction|e];
      [|rewrite Hh in Hout; discriminate Hout].
    destruct (Scanner.predict_proba m) as [proba|].
    + destruct (proba entropy file_size) as [[|[|p row] more]|e] eqn:Hproba;
        simpl in Hout; try (rewrite Hh in Hout; discriminate Hout).
      destruct prediction as [|label labels];
        simpl in Hout; [rewrite Hh in Hout; discriminate Hout|].
      injection Hout as <- <-.
      exists label, labels. split; [reflexivity|]. split; [reflexivity|].
      right. exists proba, p, row, more. auto.
    + destruct (Scanner.predict_proba_objects m) as [proba|].
      * destruct (proba entropy file_size) as [e'|e];
          simpl in Hout; [|rewrite Hh in Hout; discriminate Hout].
        destruct prediction as [|label labels];
          simpl in Hout; rewrite Hh in Hout; discriminate Hout.
      * destruct prediction as [|label labels];
          simpl in Hout; [rewrite Hh in Hout; discriminate Hout|].
        injection Hout as <- <-.
        exists label, labels. auto 10.
  - intros (label & labels & -> & -> &
            [(-> & -> & ->)|(proba & p & row & more & -> & -> & ->)]);
      reflexivity.
Qed.

Lemma model_answer_used_witness :
  Scanner.classify true (scanner_with (labelling_model 1)) (1 / 2) 500
  = [Scanner.LVerdict Scanner.MALICIOUS; Scanner.LConfidence 100]
  <-> exists label labels,
        Scanner.predict (labelling_model 1) (1 / 2) 500
        = Ok (label :: labels)
        /\ Scanner.MALICIOUS = (if (label =? 1)%Z then Scanner.MALICIOUS
                                else Scanner.BENIGN)
        /\ ((Scanner.predict_proba (labelling_model 1) = None
             /\ Scanner.predict_proba_objects (labelling_model 1) = None
             /\ 100 = 100)
            \/ exists proba p row more,
                 Scanner.predict_proba (labelling_model 1) = Some proba
                 /\ proba (1 / 2) 500%Z = Ok ((p :: row) :: more)
                 /\ 100 = fold_left Rmax row p * 100).
Proof.
  apply (model_answer_used (scanner_with (labelling_model 1))
                           (labelling_model 1) (1 / 2) 500
                           Scanner.MALICIOUS 100).
  reflexivity.
Defined.

(** X11. When the model reports probabilities, the confidence printed is
    100 times the largest value of the first row: it is 100 times a value
    of that row and no value of the row exceeds it, so it lies in
    [0, 100] when the row lies in [0, 1], and it is at least [100 / n] when
    the [n] values add up to 1. *)
Theorem confidence_from_probabilities (self : Scanner.SimpleScanner)
    (m : Scanner.Model) (proba : R -> Z -> result (list (list R)))
    (entropy : R) (file_size : Z) (label : Z) (labels : list Z)
    (row : list R) (more : list (list R)) :
  Scanner.model self = Some m ->
  Scanner.predict m entropy file_size = Ok (label :: labels) ->
  Scanner.predict_proba m = Some proba ->
  proba entropy file_size = Ok (row :: more) ->
  row <> [] ->
  exists top,
    Scanner.classify true self entropy file_size
    = [Scanner.LVerdict (if (label =? 1)%Z then Scanner.MALICIOUS
                         else Scanner.BENIGN);
       Scanner.LConfidence (top * 100)]
    /\ top ∈ row
    /\ Forall (fun p => p <= top) row
    /\ (Forall (fun p => 0 <= p <= 1) row -> 0 <= top * 100 <= 100)
    /\ (Rsum row = 1 -> 100 / INR (length row) <= top * 100).
Proof.
  intros Hmodel Hpred Hsome Hproba Hne.
  destruct row as [|p row]; [congruence|].
  exists (fold_left Rmax row p).
  assert (Hall : Forall (fun q => q <= fold_left Rmax row p) (p :: row)).
  { constructor; [apply fold_Rmax_ge_init|apply fold_Rmax_ge_all]. }
  pose proof (fold_Rmax_in row p) as Hin.
  repeat split.
  - unfold Scanner.classify, Scanner.model_scan, bind.
    rewrite Hmodel, Hpred, Hsome, Hproba. reflexivity.
  - exact Hin.
  - exact Hall.
  - rewrite Forall_forall in H. specialize (H _ Hin). lra.
  - rewrite Forall_forall in H. specialize (H _ Hin). lra.
  - intros Hsum. pose proof (Rsum_le_length_max _ _ Hall) as Hle.
    rewrite Hsum in Hle.
    assert (Hlen : 0 < INR (length (p :: row)))
      by (apply lt_0_INR; simpl; lia).
    assert (Hdiv : 1 / INR (length (p :: row)) <= fold_left Rmax row p).
    { apply div_le_bound; [assumption|]. lra. }
    unfold Rdiv in *. lra.
Qed.

Lemma confidence_from_probabilities_witness :
  exists top,
    Scanner.classify true (scanner_with (probability_model 0 [1 / 4; 3 / 4]))
                     (1 / 2) 500
    = [Scanner.LVerdict (if (0 =? 1)%Z then Scanner.MALICIOUS
                         else Scanner.BENIGN);
       Scanner.LConfidence (top * 100)]
    /\ top ∈ [1 / 4; 3 / 4]
    /\ Forall (fun p => p <= top) [1 / 4; 3 / 4]
    /\ (Forall (fun p => 0 <= p <= 1) [1 / 4; 3 / 4] -> 0 <= top * 100 <= 100)
    /\ (Rsum [1 / 4; 3 / 4] = 1
        -> 100 / INR (length [1 / 4; 3 / 4]) <= top * 100).
Proof.
  apply (confidence_from_probabilities
           (scanner_with (probability_model 0 [1 / 4; 3 / 4]))
           (probability_model 0 [1 / 4; 3 / 4])
           (fun _ _ => Ok [[1 / 4; 3 / 4]]) (1 / 2) 500 0 [] [1 / 4; 3 / 4] []);
    try reflexivity.
  discriminate.
Defined.

(** X12. A label returned by [predict] is thrown away when the steps after
    it fail: if [predict_proba] raises, returns no row (IndexError) or an
    empty first row (ValueError), the scanner prints the failure and the
    heuristic's verdict instead. *)
Theorem failed_probabilities_fall_back (self : Scanner.SimpleScanner)
    (m : Scanner.Model) (proba : R -> Z -> result (list (list R)))
    (entropy : R) (file_size : Z) (prediction : list Z) (e : Exception) :
  Scanner.model self = Some m ->
  Scanner.predict m entropy file_size = Ok prediction ->
  Scanner.predict_proba m = Some proba ->
  proba entropy file_size = Raise e
  \/ (proba entropy file_size = Ok [] /\ e = IndexError)
  \/ (exists more, proba entropy file_size = Ok ([] :: more))
     /\ e = ValueError ->
  Scanner.classify true self entropy file_size
  = Scanner.LInferenceFailed e :: Scanner._heuristic_scan entropy file_size.
Proof.
  intros Hmodel Hpred Hsome Hfail.
  unfold Scanner.classify, Scanner.model_scan, bind.
  rewrite Hmodel, Hpred, Hsome.
  destruct Hfail as [-> |[[-> ->]|[[more ->] ->]]]; reflexivity.
Qed.

Lemma failed_probabilities_fall_back_witness :
  Scanner.classify true (scanner_with (broken_proba_model 1)) (1 / 2) 500
  = Scanner.LInferenceFailed (ModelError "no probabilities")
      :: Scanner._heuristic_scan (1 / 2) 500.
Proof.
  apply (failed_probabilities_fall_back
           (scanner_with (broken_proba_model 1)) (broken_proba_model 1)
           (fun _ _ => Raise (ModelError "no probabilities"))
           (1 / 2) 500 [1%Z]);
    try reflexivity.
  left. reflexivity.
Defined.

(** X13. Every verdict a scan prints tells which path produced it:
    MALICIOUS and BENIGN are printed only with numpy and a model whose
    truth test passed, and never carry a reason; SUSPICIOUS and CLEAN
    always carry a reason and never a confidence.  The heuristic never
    prints MALICIOUS or BENIGN, the model path never SUSPICIOUS or CLEAN. *)
Theorem verdict_tells_path (HAS_NUMPY : bool) (self : Scanner.SimpleScanner)
    (file_path : string) (data : list byte) :
  Forall
    (fun v =>
       ((Scanner.status v = Scanner.MALICIOUS
         \/ Scanner.status v = Scanner.BENIGN)
        /\ Scanner.reason v = None
        /\ HAS_NUMPY = true /\ Scanner.model self <> None)
       \/ ((Scanner.status v = Scanner.SUSPICIOUS
            \/ Scanner.status v = Scanner.CLEAN)
           /\ Scanner.confidence v = None
           /\ exists r, Scanner.reason v = Some r))
    (Scanner.verdicts
       (Scanner.scan_file HAS_NUMPY self file_path (Scanner.Readable data))).
Proof.
  cbn [Scanner.scan_file app Scanner.verdicts].
  set (entropy := Scanner.calculate_entropy data).
  set (file_size := Z.of_nat (length data)).
  assert (Hheur : exists st r,
    Scanner._heuristic_scan entropy file_size
    = [Scanner.LUsingHeuristic; Scanner.LVerdict st; Scanner.LReason r]
    /\ (st = Scanner.SUSPICIOUS \/ st = Scanner.CLEAN)).
  { unfold Scanner._heuristic_scan.
    destruct (Rgtb entropy 7);
      [|destruct (Rltb entropy 3 && (10000 <? file_size)%Z)];
      do 2 eexists; (split; [reflexivity|]); auto. }
  destruct Hheur as (st' & r & Hh & Hst').
  assert (Hheuristic_verdict :
    (Scanner.status {| Scanner.status := st'; Scanner.confidence := None;
                       Scanner.reason := Some r |} = Scanner.SUSPICIOUS
     \/ Scanner.status {| Scanner.status := st'; Scanner.confidence := None;
                          Scanner.reason := Some r |} = Scanner.CLEAN)
    /\ Scanner.confidence {| Scanner.status := st';
                             Scanner.confidence := None;
                             Scanner.reason := Some r |} = None
    /\ exists r', Scanner.reason {| Scanner.status := st';
                                    Scanner.confidence := None;
                                    Scanner.reason := Some r |} = Some r')
    by (cbn; eauto).
  destruct (classify_shape HAS_NUMPY self entropy file_size)
    as [(st & c & Hmb & Hn & Hm & ->)|[-> |[(e & ->)
        |[(m & st & e & Hmb & Hn & Hm & _ & _ & ->)|(e & _ & _ & ->)]]]];
    rewrite ?Hh;
    cbn [Scanner.verdicts Scanner.reason_of Scanner.confidence_of].
  - constructor; [|constructor]. left. cbn [Scanner.status Scanner.reason].
    split; [exact Hmb|]. split; [reflexivity|]. split; assumption.
  - constructor; [|constructor]. right. exact Hheuristic_verdict.
  - constructor; [|constructor]. right. exact Hheuristic_verdict.
  - constructor.
    + left. cbn [Scanner.status Scanner.reason].
      split; [exact Hmb|]. split; [reflexivity|]. split; [exact Hn|].
      congruence.
    + constructor; [|constructor]. right. exact Hheuristic_verdict.
  - constructor.
Qed.

(** ** [load_model] and [__init__] *)

Lemma load_model_cases (HAS_NUMPY : bool) (env : Scanner.Loader)
    (self : Scanner.SimpleScanner) :
  (fst (Scanner.load_model HAS_NUMPY env self) = self
   /\ forall path,
        HAS_NUMPY = true -> Scanner.model_path self = Some path ->
        path <> EmptyString -> Scanner.path_exists env path = true ->
        exists e,
          (if endswith path ".gz" then Scanner.load_gzip env path
           else Scanner.load_plain env path) = Raise e)
  \/ exists path obj,
       HAS_NUMPY = true
       /\ Scanner.model_path self = Some path
       /\ path <> EmptyString
       /\ Scanner.path_exists env path = true
       /\ (if endswith path ".gz" then Scanner.load_gzip env path
           else Scanner.load_plain env path) = Ok obj
       /\ fst (Scanner.load_model HAS_NUMPY env self)
          = {| Scanner.model := obj;
               Scanner.model_path := Scanner.model_path self;
               Scanner.model_truth_error := None |}.
Proof.
  unfold Scanner.load_model.
  destruct HAS_NUMPY; cbn [negb];
    [|left; split; [reflexivity|intros; discriminate]].
  destruct (Scanner.model_path self) as [path|] eqn:Hpath;
    [|left; split; [reflexivity|intros; discriminate]].
  destruct (String.eqb_spec path EmptyString) as [Hempty|Hne]; cbn [negb andb].
  { left. split; [reflexivity|]. intros p _ [= <-] Hp. congruence. }
  destruct (Scanner.path_exists env path) eqn:Hexists.
  - destruct (if endswith path ".gz" then Scanner.load_gzip env path
              else Scanner.load_plain env path) as [obj|e] eqn:Hload.
    + right. exists path, obj. repeat split; auto.
    + left. split; [reflexivity|]. intros p _ [= <-] _ _. eauto.
  - left. split; [reflexivity|]. intros p _ [= <-] _ Hp. congruence.
Qed.

(** X14. After [__init__] the scanner holds a model exactly when numpy is
    there, the model path is a non-empty string naming an existing file,
    and unpickling it (through gzip when the path ends in [.gz], plainly
    otherwise) returns a truthy object; a failed load is absorbed and
    leaves [None]. *)
Theorem init_holds_model_iff (HAS_NUMPY : bool) (env : Scanner.Loader)
    (model_path : option string) (m : Scanner.Model) :
  Scanner.model (fst (Scanner.__init__ HAS_NUMPY env model_path)) = Some m
  <-> HAS_NUMPY = true
      /\ exists path,
           model_path = Some path
           /\ path <> EmptyString
           /\ Scanner.path_exists env path = true
           /\ (if endswith path ".gz" then Scanner.load_gzip env path
               else Scanner.load_plain env path) = Ok (Some m).
Proof.
  unfold Scanner.__init__, Scanner.load_model. cbn [Scanner.model_path].
  split.
  - destruct HAS_NUMPY; cbn [negb]; [|discriminate].
    destruct model_path as [path|]; [|discriminate].
    destruct (String.eqb_spec path EmptyString) as [|Hne]; cbn [negb andb];
      [discriminate|].
    destruct (Scanner.path_exists env path) eqn:Hexists; [|discriminate].
    destruct (if endswith path ".gz" then Scanner.load_gzip env path
              else Scanner.load_plain env path) as [obj|e] eqn:Hload;
      [|discriminate].
    cbn [fst Scanner.model]. intros ->. split; [reflexivity|].
    exists path. auto.
  - intros (-> & path & -> & Hne & Hexists & Hload). cbn [negb].
    destruct (String.eqb_spec path EmptyString) as [|_]; [contradiction|].
    cbn [negb andb]. rewrite Hexists, Hload. reflexivity.
Qed.

(** X15. [load_model] never changes [model_path], and changes [model] only
    when unpickling returns: without numpy, without an existing path, or
    when the load raises, a model loaded earlier is kept. *)
Theorem load_model_keeps_state (HAS_NUMPY : bool) (env : Scanner.Loader)
    (self : Scanner.SimpleScanner) :
  Scanner.model_path (fst (Scanner.load_model HAS_NUMPY env self))
  = Scanner.model_path self
  /\ (Scanner.model (fst (Scanner.load_model HAS_NUMPY env self))
      <> Scanner.model self ->
      HAS_NUMPY = true
      /\ exists path,
           Scanner.model_path self = Some path
           /\ Scanner.path_exists env path = true
           /\ (if endswith path ".gz" then Scanner.load_gzip env path
               else Scanner.load_plain env path)
              = Ok (Scanner.model
                      (fst (Scanner.load_model HAS_NUMPY env self)))).
Proof.
  destruct (load_model_cases HAS_NUMPY env self)
    as [[-> _]|(path & obj & Hn & Hpath & Hne & Hexists & Hload & ->)].
  - split; [reflexivity|]. intros Hdiff. congruence.
  - cbn [Scanner.model_path Scanner.model]. split; [reflexivity|].
    intros _. split; [assumption|]. exists path. auto.
Qed.

(** X16. For a scanner built by [__init__] the test [and HAS_NUMPY] in
    [scan_file] changes nothing, since a model is only ever loaded with
    numpy; and without numpy every scan of a readable file is the
    heuristic's, whose verdict is then fixed by the size alone. *)
Theorem scan_after_init (HAS_NUMPY : bool) (env : Scanner.Loader)
    (model_path : option string) (file_path : string) (file : Scanner.File)
    (data : list byte) :
  Scanner.scan_file HAS_NUMPY
    (fst (Scanner.__init__ HAS_NUMPY env model_path)) file_path file
  = Scanner.scan_file true
      (fst (Scanner.__init__ HAS_NUMPY env model_path)) file_path file
  /\ Scanner.scan_file false
       (fst (Scanner.__init__ false env model_path)) file_path
       (Scanner.Readable data)
     = [Scanner.LScanning file_path; Scanner.LAnalysisResults;
        Scanner.LFileSize (Z.of_nat (length data));
        Scanner.LEntropy (Scanner.calculate_entropy data);
        Scanner.LUsingHeuristic]
       ++ (if (10000 <? Z.of_nat (length data))%Z
           then [Scanner.LVerdict Scanner.SUSPICIOUS;
                 Scanner.LReason Scanner.low_entropy_reason]
           else [Scanner.LVerdict Scanner.CLEAN;
                 Scanner.LReason Scanner.normal_reason]).
Proof.
  split.
  - destruct HAS_NUMPY; [reflexivity|].
    destruct file; reflexivity.
  - cbn [Scanner.scan_file Scanner.__init__ Scanner.load_model negb fst
         Scanner.classify Scanner.model app].
    pose proof (calculate_entropy_bounds data) as [Hlo Hhi].
    unfold Scanner._heuristic_scan.
    rewrite Rgtb_false, Rltb_true by lra. reflexivity.
Qed.

(** X17. [load_model] reports success as soon as unpickling returns, even
    when the object it got is falsy: the scanner then prints
    "Model loaded successfully." and still answers every scan with the
    heuristic. *)
Theorem loaded_but_unused (env : Scanner.Loader) (path : string)
    (file_path : string) (data : list byte) :
  path <> EmptyString ->
  Scanner.path_exists env path = true ->
  (if endswith path ".gz" then Scanner.load_gzip env path
   else Scanner.load_plain env path) = Ok None ->
  snd (Scanner.__init__ true env (Some path))
  = [Scanner.LLoading path; Scanner.LLoaded]
  /\ Scanner.scan_file true (fst (Scanner.__init__ true env (Some path)))
                       file_path (Scanner.Readable data)
     = [Scanner.LScanning file_path; Scanner.LAnalysisResults;
        Scanner.LFileSize (Z.of_nat (length data));
        Scanner.LEntropy (Scanner.calculate_entropy data)]
       ++ Scanner._heuristic_scan (Scanner.calculate_entropy data)
                                  (Z.of_nat (length data)).
Proof.
  intros Hne Hexists Hload.
  unfold Scanner.__init__, Scanner.load_model.
  cbn [negb Scanner.model_path].
  destruct (String.eqb_spec path EmptyString) as [|_]; [contradiction|].
  cbn [negb andb]. rewrite Hexists, Hload. split; reflexivity.
Qed.

Lemma loaded_but_unused_witness :
  snd (Scanner.__init__ true
         {| Scanner.path_exists := fun _ => true;
            Scanner.load_gzip := fun _ => Raise (OSError "not a gzip file");
            Scanner.load_plain := fun _ => Ok None |}
         (Some "model.pkl"%string))
  = [Scanner.LLoading "model.pkl"; Scanner.LLoaded]
  /\ Scanner.scan_file true
       (fst (Scanner.__init__ true
               {| Scanner.path_exists := fun _ => true;
                  Scanner.load_gzip :=
                    fun _ => Raise (OSError "not a gzip file");
                  Scanner.load_plain := fun _ => Ok None |}
               (Some "model.pkl"%string)))
       "sample.bin" (Scanner.Readable [x00; x01])
     = [Scanner.LScanning "sample.bin"; Scanner.LAnalysisResults;
        Scanner.LFileSize (Z.of_nat (length [x00; x01]));
        Scanner.LEntropy (Scanner.calculate_entropy [x00; x01])]
       ++ Scanner._heuristic_scan (Scanner.calculate_entropy [x00; x01])
                                  (Z.of_nat (length [x00; x01])).
Proof.
  apply (loaded_but_unused
           {| Scanner.path_exists := fun _ => true;
              Scanner.load_gzip := fun _ => Raise (OSError "not a gzip file");
              Scanner.load_plain := fun _ => Ok None |}
           "model.pkl" "sample.bin" [x00; x01]);
    [discriminate|reflexivity|reflexivity].
Defined.

(** ** [visualize_file] *)

Lemma ceil_div_small (n w : nat) :
  (n < w)%nat -> Nat.max 1 (ceil_div n w) = 1%nat.
Proof.
  intros Hlt. destruct n as [|n].
  - rewrite ceil_div_zero by lia. reflexivity.
  - rewrite (ceil_div_step (S n) w) by lia.
    replace (S n - w)%nat with 0%nat by lia.
    rewrite ceil_div_zero by lia. reflexivity.
Qed.

Lemma ceil_div_large (n w : nat) :
  (0 < w)%nat -> (w <= n)%nat -> Nat.max 1 (ceil_div n w) = ceil_div n w.
Proof.
  intros Hw Hle. rewrite (ceil_div_step n w) by lia. lia.
Qed.

(** X18. [visualize_file] never raises on the window it uses (256), and
    reaches [plt.savefig] exactly when matplotlib is there and the file is
    readable.  The series plotted is then the 256-byte profile of the file:
    [max(1, ceil(len / 256))] points, all inside the y-limits set on the
    figure, so that nothing is clipped. *)
Theorem visualize_file_saves (HAS_MATPLOTLIB : bool) (file_path : string)
    (file : Scanner.File) (output_image : string) :
  exists saved,
    snd (Visualize.visualize_file HAS_MATPLOTLIB file_path file output_image)
    = Ok saved
    /\ (saved <> None
        <-> HAS_MATPLOTLIB = true /\ exists data, file = Scanner.Readable data)
    /\ forall fig,
         saved = Some fig ->
         exists data,
           file = Scanner.Readable data
           /\ Visualize.calculate_local_entropy data 256
              = Ok (Visualize.plotted fig)
           /\ length (Visualize.plotted fig)
              = Nat.max 1 (ceil_div (length data) 256)
           /\ Forall (fun e => fst (Visualize.ylim fig) <= e
                               <= snd (Visualize.ylim fig))
                     (Visualize.plotted fig)
           /\ Visualize.saved_to fig = output_image.
Proof.
  unfold Visualize.visualize_file.
  destruct HAS_MATPLOTLIB; cbn [negb].
  2:{ exists None. split; [reflexivity|]. split; [|discriminate].
      split; [congruence|]. intros [Hf _]. discriminate. }
  destruct file as [|e|data].
  - exists None. split; [reflexivity|]. split; [|discriminate].
    split; [congruence|]. intros (_ & data & Hd). discriminate.
  - exists None. split; [reflexivity|]. split; [|discriminate].
    split; [congruence|]. intros (_ & data & Hd). discriminate.
  - destruct (Z.lt_ge_cases (Z.of_nat (length data)) 256) as [Hlt|Hge].
    + rewrite local_entropy_short by assumption.
      eexists. split; [reflexivity|]. split.
      * split; [eauto|discriminate].
      * intros fig [= <-]. exists data. cbn [Visualize.plotted
          Visualize.ylim Visualize.saved_to fst snd].
        repeat split.
        -- apply local_entropy_short; assumption.
        -- rewrite ceil_div_small by lia. reflexivity.
        -- repeat constructor; lra.
    + rewrite local_entropy_chunks by lia.
      eexists. split; [reflexivity|]. split.
      * split; [eauto|discriminate].
      * intros fig [= <-]. exists data. cbn [Visualize.plotted
          Visualize.ylim Visualize.saved_to fst snd].
        repeat split.
        -- apply local_entropy_chunks; lia.
        -- rewrite length_map, length_seq.
           change (Z.to_nat 256) with 256%nat.
           rewrite ceil_div_large by lia. reflexivity.
        -- apply Forall_map, Forall_forall. intros k _.
           apply calculate_entropy_bounds.
Qed.

(** ** Equal counts reach the bound *)

Lemma entropy_sum_equal_counts (total c : nat) (h : list nat) :
  Forall (fun x => x = 0%nat \/ x = c) h ->
  Rsum (map (entropy_term total) h)
  = INR (length (List.filter (fun x => negb (x =? 0)%nat) h))
    * entropy_term total c
  /\ sum_list h
     = (length (List.filter (fun x => negb (x =? 0)%nat) h) * c)%nat.
Proof.
  induction 1 as [|x h Hx _ [IH1 IH2]].
  - simpl. split; [lra|reflexivity].
  - change (Rsum (map (entropy_term total) (x :: h)))
      with (entropy_term total x + Rsum (map (entropy_term total) h)).
    change (sum_list (x :: h)) with (x + sum_list h)%nat.
    rewrite IH1, IH2. cbn [List.filter].
    destruct (Nat.eqb_spec x 0) as [->|Hnz]; cbn [negb].
    + unfold entropy_term at 1. simpl (0 =? 0)%nat. cbv iota.
      split; [lra|lia].
    + destruct Hx as [Hx0| ->]; [contradiction|].
      change (length (c :: ?l)) with (S (length l)).
      rewrite S_INR. split; [lra|lia].
Qed.

(** X19. When every byte value that occurs in a buffer occurs the same
    number of times, the entropy is exactly [log_256 m] for the [m] values
    in use: the bound of X5 is reached. *)
Theorem entropy_equal_counts (data : list byte) (c : nat) :
  (0 < c)%nat ->
  (forall b : byte,
      occurrences (Byte.to_nat b) data = 0%nat
      \/ occurrences (Byte.to_nat b) data = c) ->
  data <> [] ->
  length data = (distinct_values data * c)%nat
  /\ Scanner.calculate_entropy data
     = ln (INR (distinct_values data)) / ln 256.
Proof.
  intros Hc Hocc Hne.
  destruct (distinct_values_bounds data Hne) as (Hm1 & _ & _).
  assert (Hall : Forall (fun x => x = 0%nat \/ x = c)
                        (Scanner.byte_histogram data)).
  { apply histogram_Forall. intros i Hi.
    destruct (byte_of_index i Hi) as [b <-]. apply Hocc. }
  destruct (entropy_sum_equal_counts (length data) c _ Hall)
    as [Hsum Hlen].
  fold (distinct_values data) in Hsum, Hlen.
  rewrite histogram_sum in Hlen. split; [exact Hlen|].
  rewrite calculate_entropy_sum, Hsum.
  unfold entropy_term.
  destruct (Nat.eqb_spec c 0) as [|_]; [lia|].
  rewrite Hlen, mult_INR.
  set (m := INR (distinct_values data)).
  assert (Hm : 0 < m) by (apply lt_0_INR; lia).
  assert (Hc' : 0 < INR c) by (apply lt_0_INR; assumption).
  replace (1 * INR c / (m * INR c)) with (/ m) by (field; lra).
  unfold math_log. rewrite ln_Rinv by assumption.
  pose proof ln256_pos. field. lra.
Qed.

Lemma entropy_equal_counts_witness :
  length [x00; x01; x02; x00; x01; x02]
  = (distinct_values [x00; x01; x02; x00; x01; x02] * 2)%nat
  /\ Scanner.calculate_entropy [x00; x01; x02; x00; x01; x02]
     = ln (INR (distinct_values [x00; x01; x02; x00; x01; x02])) / ln 256.
Proof.
  apply (entropy_equal_counts [x00; x01; x02; x00; x01; x02] 2).
  - lia.
  - intros b. destruct b; vm_compute; auto.
  - discriminate.
Defined.
